(** * Stopwatch: a shallow embedding of [stopwatch.h]

    The header defines one class template, [Stopwatch<Duration, Clock>], a
    vector of clock time points with a mode flag, and its nested random
    access [iterator], a pair of raw pointers into that vector.

    Conventions of the embedding.
    - A [Clock::time_point] is the integer count of clock ticks since the
      epoch, an element of [Z]; the difference of two time points is a
      [Clock::duration] with that many ticks.  The representation type is a
      64-bit signed integer whose overflow is undefined.  [operator_index]
      and the iterator compute in exact arithmetic, which is that of the
      code wherever the code has a defined result;
      [operator_index_typed] and [approx] compute in the types of the
      machine and are [Undefined] where a difference, a product or the
      increment of the index overflows.
    - A [const time_point*] is an address, counted in cells of one time
      point each; pointer difference is the difference of the addresses.
    - [std::vector] owns a block of cells obtained from an allocator; the
      allocator is the state that constructors, [record] and the
      interleaving operators thread.
    - An operation that can throw returns a [result]; reading outside a
      vector through the unchecked [operator[]] is [Undefined].
    - The iterator is embedded with its pointer arithmetic, comparisons
      and difference; dereferencing it reads raw memory and is left
      out. *)

From Stdlib Require Import ZArith List Lia Bool.
From stdpp Require Import base option list sorting gmap.

Open Scope Z_scope.

(** ** Results of operations that may throw *)

Inductive exn : Set :=
| out_of_range    (* std::out_of_range, thrown by std::vector::at *)
| runtime_error.  (* std::runtime_error("Iterator base mismatch.") *)

Inductive result (A : Type) : Type :=
| Ok (a : A)
| Throw (e : exn)
| Undefined.

Arguments Ok {A} a.
Arguments Throw {A} e.
Arguments Undefined {A}.

Definition result_bind {A B : Type} (r : result A) (k : A -> result B) : result B :=
  match r with
  | Ok a => k a
  | Throw e => Throw e
  | Undefined => Undefined
  end.

(** ** Integers of the machine *)

(** [size_t] is 64 bits wide; an integral argument is converted to it
    modulo [2^64]. *)
Definition SIZE_MAX : Z := 2 ^ 64 - 1.

Definition to_size_t (z : Z) : Z := z mod 2 ^ 64.

(** The signed 64-bit type: the representation of the tick counts of the
    clock and of [Duration], [intmax_t], in which [duration_cast]
    multiplies, and [long], in which the unit tests compute. *)
Definition in_rep (z : Z) : bool := (- 2 ^ 63 <=? z) && (z <? 2 ^ 63).

(** The result of an operation of signed arithmetic whose exact value is
    [z]: outside the type the operation overflows and has no defined
    result. *)
Definition rep (z : Z) : result Z := if in_rep z then Ok z else Undefined.

(** An integral type, as the template parameter [Integer] of the indexed
    accessors: whether it is signed, and its width in bits. *)
Record integral : Set := Integral {
  int_signed : bool;
  int_bits : Z
}.

Definition int_min (ty : integral) : Z :=
  if int_signed ty then - 2 ^ (int_bits ty - 1) else 0.

Definition int_max (ty : integral) : Z :=
  if int_signed ty then 2 ^ (int_bits ty - 1) - 1 else 2 ^ int_bits ty - 1.

Definition in_type (ty : integral) (z : Z) : bool :=
  (int_min ty <=? z) && (z <=? int_max ty).

(** [index + 1] for an [index] of the type [ty]: an operand narrower than
    [int] is promoted to [int], where the sum fits; otherwise the sum is
    taken in [ty], where an unsigned sum wraps around and a signed sum
    that overflows has no defined result. *)
Definition plus_one (ty : integral) (index : Z) : result Z :=
  if int_bits ty <? 32 then Ok (index + 1)
  else if int_signed ty
       then (if index + 1 <=? int_max ty then Ok (index + 1) else Undefined)
       else Ok ((index + 1) mod 2 ^ int_bits ty).

(** Tick counts whose differences, and the differences multiplied by
    [num], stay inside the signed 64-bit type. *)
Definition ticks_fit (num : Z) (l : list Z) : bool :=
  forallb (fun x =>
    forallb (fun y => in_rep (y - x) && in_rep ((y - x) * num)) l) l.

(** ** The allocator *)

(** The allocator hands out blocks of cells from an address space that
    starts at 1 (address 0 is the null pointer).  Its state is the first
    address never handed out; a block that is given back is not handed
    out again. *)
Definition heap : Type := Z.

Definition Alloc (A : Type) : Type := heap -> A * heap.

Definition ret {A : Type} (a : A) : Alloc A := fun h => (a, h).

Definition bind {A B : Type} (m : Alloc A) (k : A -> Alloc B) : Alloc B :=
  fun h => let (a, h') := m h in k a h'.

Notation "'let*' x ':=' m 'in' k" := (bind m (fun x => k))
  (at level 10, x name, m at level 100, k at level 200).

Definition null : Z := 0.

Definition allocate (n : Z) : Alloc Z := fun h => (h, h + n).

Definition heap_init : heap := 1.

(** ** The parts of the standard library the header uses *)

Module std.

(** [std::vector<Clock::time_point>]: the address of its block, the
    capacity of the block and the elements held.  A vector that never
    allocated has a null block of capacity 0. *)
Record vector : Type := Vector {
  v_data : Z;
  v_cap : Z;
  v_elems : list Z
}.

Definition vector_default : vector := Vector null 0 [].

Definition v_size (v : vector) : Z := Z.of_nat (length (v_elems v)).

Definition v_empty (v : vector) : bool := v_size v =? 0.

(** [max_size()] of a vector of time points of eight bytes:
    [PTRDIFF_MAX / 8]. *)
Definition max_size : Z := 2 ^ 60 - 1.

(** [v.reserve(n)], for [n] up to [max_size()]: a larger block is
    allocated when the capacity is below [n], otherwise nothing happens.
    Above [max_size()] the library throws [std::length_error]; the
    statements about the reserving constructor keep its argument below
    that. *)
Definition reserve (n : Z) (v : vector) : Alloc vector :=
  if v_cap v <? n
  then let* p := allocate n in ret (Vector p n (v_elems v))
  else ret v.

(** [v.emplace_back(x)]: in place while capacity is left; otherwise the
    elements move to a new block of [size + max(size, 1)] cells. *)
Definition emplace_back (x : Z) (v : vector) : Alloc vector :=
  if v_size v <? v_cap v
  then ret (Vector (v_data v) (v_cap v) (v_elems v ++ [x]))
  else
    let n := v_size v + Z.max (v_size v) 1 in
    let* p := allocate n in ret (Vector p n (v_elems v ++ [x])).

(** [std::back_inserter(v)] fed with the elements of [xs] in order. *)
Fixpoint back_insert (xs : list Z) (v : vector) : Alloc vector :=
  match xs with
  | [] => ret v
  | x :: xs' => let* v' := emplace_back x v in back_insert xs' v'
  end.

(** [v.clear()]: the elements go, the block stays. *)
Definition clear (v : vector) : vector := Vector (v_data v) (v_cap v) [].

(** Copy construction: a block of exactly [size] cells, none for an
    empty source. *)
Definition copy (v : vector) : Alloc vector :=
  if v_size v =? 0
  then ret vector_default
  else let* p := allocate (v_size v) in ret (Vector p (v_size v) (v_elems v)).

(** [v.at(n)] with [n] already a [size_t]: range checked. *)
Definition at_ (v : vector) (n : Z) : result Z :=
  if n <? v_size v
  then match v_elems v !! Z.to_nat n with
       | Some x => Ok x
       | None => Undefined
       end
  else Throw out_of_range.

(** [v[n]] with [n] already a [size_t]: not checked, so that a read at
    or past the size has no defined result. *)
Definition index (v : vector) (n : Z) : result Z :=
  if n <? v_size v
  then match v_elems v !! Z.to_nat n with
       | Some x => Ok x
       | None => Undefined
       end
  else Undefined.

(** [v.front()]. *)
Definition front (v : vector) : result Z :=
  match v_elems v with
  | x :: _ => Ok x
  | [] => Undefined
  end.

(** [std::set_union] on two ranges, compared with [<]: the smaller head
    is written and passed; of two equivalent heads the one of the first
    range is written and both are passed; what is left of either range
    is copied. *)
Fixpoint set_union (l1 : list Z) : list Z -> list Z :=
  fix go (l2 : list Z) : list Z :=
    match l1, l2 with
    | [], _ => l2
    | _, [] => l1
    | x :: l1', y :: l2' =>
        if x <? y then x :: set_union l1' l2
        else if y <? x then y :: go l2'
        else x :: set_union l1' l2'
    end.

(** [std::is_sorted] with [<]: no element is smaller than the one
    before it. *)
Fixpoint is_sorted (l : list Z) : bool :=
  match l with
  | [] => true
  | x :: l' =>
      match l' with
      | [] => true
      | y :: _ => negb (y <? x) && is_sorted l'
      end
  end.

(** [std::chrono::duration_cast<Duration>] applied to a [Clock::duration]
    of [d] ticks: the count is multiplied by the reduced ratio
    [num / den] of the clock period to the period of [Duration], with
    the integer division of C++, which truncates towards zero.  This is
    the exact value; [duration_cast_rep] below is the computation in the
    signed 64-bit type. *)
Definition duration_cast (num den : Z) (d : Z) : Z := (d * num) ÷ den.

(** The same in the arithmetic of the machine: the product is taken in
    [intmax_t] and has no defined result when it overflows; the quotient
    of a product that fits does fit. *)
Definition duration_cast_rep (num den : Z) (d : Z) : result Z :=
  result_bind (rep (d * num)) (fun p => Ok (p ÷ den)).

(** Reading through a [const time_point*]: the cells of the block of [v]
    that hold its elements can be read; a read anywhere else has no
    defined result. *)
Definition read (v : vector) (p : Z) : result Z :=
  if (v_data v <=? p) && (p <? v_data v + v_size v)
  then match v_elems v !! Z.to_nat (p - v_data v) with
       | Some x => Ok x
       | None => Undefined
       end
  else Undefined.

(** [std::includes] on two ranges, compared with [<]: the second range
    is walked along the first; a head of the second that is smaller than
    the head of the first, or left over when the first range ends, is
    missing. *)
Fixpoint includes (l1 l2 : list Z) {struct l1} : bool :=
  match l2 with
  | [] => true
  | y :: l2' =>
      match l1 with
      | [] => false
      | x :: l1' =>
          if y <? x then false
          else if x <? y then includes l1' l2
          else includes l1' l2'
      end
  end.

End std.

(** ** The class template [Stopwatch<Duration, Clock>] *)

Module Stopwatch.

(** The member variables. *)
Record t : Type := Make {
  measurements : std.vector;
  sw_mode : bool
}.

Definition SPLIT_MODE : bool := true.

Definition ELAPSE_MODE : bool := false.

(** [Stopwatch(bool mode_in)]. *)
Definition ctor (mode_in : bool) : Alloc t :=
  let* m := std.reserve 2 std.vector_default in
  ret (Make m mode_in).

(** [Stopwatch(size_t res, bool mode_in)]; [res + 1] is computed in
    [size_t]. *)
Definition ctor_reserve (res : Z) (mode_in : bool) : Alloc t :=
  let* m := std.reserve (to_size_t (res + 1)) std.vector_default in
  ret (Make m mode_in).

Definition empty (sw : t) : bool := std.v_size (measurements sw) <? 2.

Definition size (sw : t) : Z :=
  let sz := std.v_size (measurements sw) in
  if 1 <? sz then sz - 1 else 0.

Definition mode (sw : t) : bool := sw_mode sw.

Definition set_mode (mode_in : bool) (sw : t) : t :=
  Make (measurements sw) mode_in.

(** [record()]; [now] is what [Clock::now()] returns at the call. *)
Definition record (now : Z) (sw : t) : Alloc t :=
  let* m := std.emplace_back now (measurements sw) in
  ret (Make m (sw_mode sw)).

Definition clear (sw : t) : t := Make (std.clear (measurements sw)) (sw_mode sw).

(** [data()], the vector read through the returned reference. *)
Definition data (sw : t) : list Z := std.v_elems (measurements sw).

(** [data(Integer index)]; [index] is the value of the integral
    argument, converted to [size_t] by the call of [at]. *)
Definition data_at (sw : t) (index : Z) : result Z :=
  std.at_ (measurements sw) (to_size_t index).

Definition data_size (sw : t) : Z := std.v_size (measurements sw).

Section Template.

(** The template parameters enter through the reduced ratio
    [cf_num / cf_den] of [Clock::period] to [Duration::period]. *)
Variables cf_num cf_den : Z.

(** [operator[](Integer index)]; [index] is the value of the integral
    argument.  [index + 1] is computed in the type of the argument and
    converted to [size_t] by [at]: for the 64-bit types that is
    [index + 1] modulo [2^64], as written here, and for the narrower
    ones as well unless [index + 1] overflows the type. *)
Definition operator_index (sw : t) (index : Z) : result Z :=
  result_bind (std.at_ (measurements sw) (to_size_t (index + 1))) (fun end_ =>
  result_bind (if Bool.eqb (sw_mode sw) SPLIT_MODE
               then std.index (measurements sw) (to_size_t index)
               else std.front (measurements sw)) (fun begin =>
  Ok (std.duration_cast cf_num cf_den (end_ - begin)))).

End Template.

Section MachineArithmetic.

Variables cf_num cf_den : Z.

(** [operator[](Integer index)] with the arithmetic of the machine, for
    an [index] of the integral type [ty]: [index + 1] is computed in the
    type of the argument and converted to [size_t] by [at], [index] is
    converted to [size_t] by the unchecked [operator[]], the difference
    of the two time points is taken in the 64-bit representation of the
    clock, and [duration_cast] multiplies in [intmax_t]. *)
Definition operator_index_typed (ty : integral) (sw : t) (index : Z) : result Z :=
  result_bind (plus_one ty index) (fun index1 =>
  result_bind (std.at_ (measurements sw) (to_size_t index1)) (fun end_ =>
  result_bind (if Bool.eqb (sw_mode sw) SPLIT_MODE
               then std.index (measurements sw) (to_size_t index)
               else std.front (measurements sw)) (fun begin =>
  result_bind (rep (end_ - begin)) (fun d =>
  std.duration_cast_rep cf_num cf_den d)))).

End MachineArithmetic.

(** The nested class [iterator]. *)
Module iterator.

Record t : Type := Make {
  base : Z;
  ptr : Z;
  iter_mode : bool
}.

Definition mode (it : t) : bool := iter_mode it.

Definition set_mode (mode_in : bool) (it : t) : t :=
  Make (base it) (ptr it) mode_in.

(** [++it] and [--it], as the new value of the iterator. *)
Definition operator_incr (it : t) : t := Make (base it) (ptr it + 1) (iter_mode it).

Definition operator_decr (it : t) : t := Make (base it) (ptr it - 1) (iter_mode it).

Definition operator_eq (a other : t) : bool :=
  (ptr a =? ptr other) && (base a =? base other).

Definition operator_ne (a other : t) : bool :=
  negb (ptr a =? ptr other) || negb (base a =? base other).

Definition operator_lt (a other : t) : bool :=
  (ptr other - ptr a >? 0) && (base a =? base other).

Definition operator_le (a other : t) : bool :=
  (ptr other - ptr a >=? 0) && (base a =? base other).

Definition operator_gt (a other : t) : bool :=
  (ptr a - ptr other >? 0) && (base a =? base other).

Definition operator_ge (a other : t) : bool :=
  (ptr a - base other >=? 0) && (base a =? base other).

(** [it + dist] and [it - dist]. *)
Definition operator_plus (it : t) (dist : Z) : t :=
  Make (base it) (ptr it + dist) (iter_mode it).

Definition operator_minus (it : t) (dist : Z) : t :=
  Make (base it) (ptr it - dist) (iter_mode it).

(** [it - other]. *)
Definition operator_sub (a other : t) : result Z :=
  if negb (base a =? base other)
  then Throw runtime_error
  else Ok (ptr a - ptr other).

(** [it++] and [it--]: the copy that is returned, which is the old
    value, and the new value of the iterator. *)
Definition operator_post_incr (it : t) : t * t := (it, operator_incr it).

Definition operator_post_decr (it : t) : t * t := (it, operator_decr it).

Section Dereference.

(** The template parameters, as for the stopwatch, and the memory the
    pointers of the iterator are read from. *)
Variables cf_num cf_den : Z.
Variable mem : Z -> result Z.

(** [*it]. *)
Definition operator_deref (it : t) : result Z :=
  result_bind (mem (ptr it + 1)) (fun end_ =>
  result_bind (if Bool.eqb (iter_mode it) SPLIT_MODE
               then mem (ptr it)
               else mem (base it)) (fun begin =>
  Ok (std.duration_cast cf_num cf_den (end_ - begin)))).

(** [it[dist]]. *)
Definition operator_index (it : t) (dist : Z) : result Z :=
  operator_deref (operator_plus it dist).

End Dereference.

End iterator.

(** [begin()]. *)
Definition begin (sw : t) : iterator.t :=
  let base := std.v_data (measurements sw) in
  iterator.Make base base (sw_mode sw).

(** [end()]: [fin] points to the last snapshot, and to the start of the
    block when there is none. *)
Definition end_ (sw : t) : iterator.t :=
  let base := std.v_data (measurements sw) in
  let fin := if std.v_empty (measurements sw)
             then base
             else base + (std.v_size (measurements sw) - 1) in
  iterator.Make base fin (sw_mode sw).

(** [operator+=]. *)
Definition operator_plus_assign (this other : t) : Alloc t :=
  let* new_measures :=
    std.reserve (std.v_size (measurements this) + std.v_size (measurements other))
                std.vector_default in
  let* new_measures :=
    std.back_insert (std.set_union (std.v_elems (measurements this))
                                   (std.v_elems (measurements other)))
                    new_measures in
  ret (Make new_measures (sw_mode this)).

(** [operator+]: [temp] is a copy of [*this], and the reference that
    [temp += other] returns is copied into the result. *)
Definition operator_plus (this other : t) : Alloc t :=
  let* m := std.copy (measurements this) in
  let temp := Make m (sw_mode this) in
  let* temp := operator_plus_assign temp other in
  let* m' := std.copy (measurements temp) in
  ret (Make m' (sw_mode temp)).

End Stopwatch.

(** ** Programs over named stopwatches *)

(** A program state: the allocator and the stopwatch objects alive, by
    name.  Objects are reached by name because [operator+=] reads a second
    stopwatch through a reference, which may be the receiver itself. *)
Record world : Type := World {
  w_heap : heap;
  w_objs : gmap nat Stopwatch.t
}.

Definition world_init : world := World heap_init ∅.

(** The statements of a client. *)
Inductive op : Set :=
| Construct (x : nat) (mode_in : bool)                (* Stopwatch x(mode_in); *)
| ConstructReserve (x : nat) (res : Z) (mode_in : bool) (* Stopwatch x(res, mode_in); *)
| Record_ (x : nat) (now : Z)                         (* x.record(); *)
| Clear (x : nat)                                     (* x.clear(); *)
| SetMode (x : nat) (mode_in : bool)                  (* x.mode(mode_in); *)
| PlusAssign (x y : nat)                              (* x += y; *)
| Plus (z x y : nat).                                 (* Stopwatch z = x + y; *)

(** Store the stopwatch that an allocating member function returns. *)
Definition store (x : nat) (m : Alloc Stopwatch.t) (w : world) : world :=
  let (sw, h) := m (w_heap w) in World h (<[x := sw]> (w_objs w)).

(** One statement; [None] when it names a stopwatch that does not exist. *)
Definition step (w : world) (o : op) : option world :=
  match o with
  | Construct x mode_in => Some (store x (Stopwatch.ctor mode_in) w)
  | ConstructReserve x res mode_in =>
      Some (store x (Stopwatch.ctor_reserve res mode_in) w)
  | Record_ x now =>
      sw ← w_objs w !! x; Some (store x (Stopwatch.record now sw) w)
  | Clear x =>
      sw ← w_objs w !! x; Some (store x (ret (Stopwatch.clear sw)) w)
  | SetMode x mode_in =>
      sw ← w_objs w !! x; Some (store x (ret (Stopwatch.set_mode mode_in sw)) w)
  | PlusAssign x y =>
      this ← w_objs w !! x; other ← w_objs w !! y;
      Some (store x (Stopwatch.operator_plus_assign this other) w)
  | Plus z x y =>
      this ← w_objs w !! x; other ← w_objs w !! y;
      Some (store z (Stopwatch.operator_plus this other) w)
  end.

Fixpoint run (w : world) (os : list op) : option world :=
  match os with
  | [] => Some w
  | o :: os' => w' ← step w o; run w' os'
  end.

(** The helper [recorded] of the unit tests: a stopwatch made by the
    reserving constructor that records once and then once after each
    sleep; [t0] and [nows] are the clock readings of these calls. *)
Definition recorded (x : nat) (t0 : Z) (nows : list Z) (mode_in : bool) : list op :=
  ConstructReserve x (Z.of_nat (length nows)) mode_in
    :: Record_ x t0 :: map (Record_ x) nows.

(** ** The loops and helpers of the unit tests *)

(** The loop [for (auto it = first; it != last; it++)] that visits [*it],
    as the list of the values visited; [None] when [fuel] rounds do not
    bring [it] to [last]. *)
Fixpoint range_for (cf_num cf_den : Z) (mem : Z -> result Z) (fuel : nat)
    (it last : Stopwatch.iterator.t) : option (list (result Z)) :=
  if Stopwatch.iterator.operator_ne it last
  then match fuel with
       | O => None
       | S fuel' =>
           cons (Stopwatch.iterator.operator_deref cf_num cf_den mem it) <$>
             range_for cf_num cf_den mem fuel'
               (Stopwatch.iterator.operator_post_incr it).2 last
       end
  else Some [].

(** [approx(actual, experimental, error)], computed in [long]:
    [actual + error] is evaluated only when the first comparison holds,
    and a difference or sum that overflows has no defined result. *)
Definition approx (actual experimental error : Z) : result bool :=
  result_bind (rep (actual - error)) (fun lo =>
  if lo <=? experimental
  then result_bind (rep (actual + error)) (fun hi => Ok (experimental <=? hi))
  else Ok false).

(** What [Clock::now()] returned to the [record] calls of a program, in
    the order of the calls. *)
Definition clock_readings (os : list op) : list Z :=
  omap (fun o => match o with Record_ _ now => Some now | _ => None end) os.

(** ** Predicates used in the statements *)

(** Strictly rising: sorted with no time point twice. *)
Fixpoint strictly_increasing (l : list Z) : bool :=
  match l with
  | [] => true
  | x :: l' =>
      match l' with
      | [] => true
      | y :: _ => (x <? y) && strictly_increasing l'
      end
  end.

(** The union as the specification words it: in rising order, time points
    of identical value collapsed to one, and holding exactly the time
    points of the two sequences. *)
Definition collapsed_union (l1 l2 r : list Z) : Prop :=
  strictly_increasing r = true /\ forall x, In x r <-> In x l1 \/ In x l2.

(** A vector either never allocated or owns a block of cells the
    allocator has handed out. *)
Definition block_ok (h : heap) (v : std.vector) : Prop :=
  std.v_size v <= std.v_cap v /\
  ((std.v_cap v = 0 /\ std.v_data v = null) \/
   (0 < std.v_cap v /\ 1 <= std.v_data v /\ std.v_data v + std.v_cap v <= h)).

(** Two blocks share no cell. *)
Definition apart (u v : std.vector) : Prop :=
  0 < std.v_cap u -> 0 < std.v_cap v ->
  std.v_data u + std.v_cap u <= std.v_data v \/
  std.v_data v + std.v_cap v <= std.v_data u.

(** The vector [v'] that an operation leaves in place of [u]: it is in the
    block of [u], or has none, or is in a block handed out from [h] on. *)
Definition placed (h : heap) (u v' : std.vector) : Prop :=
  (std.v_data v' = std.v_data u /\ std.v_cap v' = std.v_cap u) \/
  std.v_cap v' = 0 \/ h <= std.v_data v'.

(** What an allocating operation on the vector [u] does: it leaves the
    elements [xs] in a vector placed as above, and the allocator only
    advances. *)
Definition moves (u : std.vector) (xs : list Z) (m : Alloc std.vector) : Prop :=
  forall h, 1 <= h -> block_ok h u ->
    std.v_elems (m h).1 = xs /\ h <= (m h).2 /\
    block_ok (m h).2 (m h).1 /\ placed h u (m h).1.

(** The same for an operation that returns a stopwatch: its snapshots, its
    mode and the placement of its vector. *)
Definition sw_moves (u : std.vector) (xs : list Z) (md : bool)
    (m : Alloc Stopwatch.t) : Prop :=
  forall h, 1 <= h -> block_ok h u ->
    Stopwatch.data (m h).1 = xs /\ Stopwatch.sw_mode (m h).1 = md /\
    h <= (m h).2 /\
    block_ok (m h).2 (Stopwatch.measurements (m h).1) /\
    placed h u (Stopwatch.measurements (m h).1).

Definition world_ok (w : world) : Prop :=
  1 <= w_heap w /\
  (forall x sw, w_objs w !! x = Some sw ->
     block_ok (w_heap w) (Stopwatch.measurements sw)) /\
  (forall x y A B, x <> y -> w_objs w !! x = Some A -> w_objs w !! y = Some B ->
     apart (Stopwatch.measurements A) (Stopwatch.measurements B)).


(** How often a time point occurs in a sequence. *)
Abbreviation occurrences l z := (count_occ Z.eq_dec l z).

(** The stopwatch a statement assigns. *)
Definition target (o : op) : nat :=
  match o with
  | Construct x _ | ConstructReserve x _ _ | Record_ x _ | Clear x
  | SetMode x _ | PlusAssign x _ | Plus x _ _ => x
  end.

(** ** Tactics *)

Ltac alloc_simpl := unfold bind, ret, allocate in *; simpl in *.

(** Split a conjunction into its parts, without unfolding any of them. *)
Ltac splits := repeat match goal with |- _ /\ _ => split end.

Ltac block_solver :=
  unfold block_ok, placed, std.v_size, std.vector_default, null in *; simpl in *;
  rewrite ?length_app in *; simpl in *;
  repeat match goal with |- _ /\ _ => split end;
  solve [reflexivity | lia].

(** * Properties *)

(** ** Reading the vector *)

Lemma to_size_t_small (z : Z) : 0 <= z <= SIZE_MAX -> to_size_t z = z.
Proof.
  unfold to_size_t, SIZE_MAX. intros Hz. apply Z.mod_small. lia.
Qed.

Lemma to_size_t_range (z : Z) : 0 <= to_size_t z <= SIZE_MAX.
Proof.
  unfold to_size_t, SIZE_MAX.
  pose proof (Z.mod_pos_bound z (2 ^ 64) ltac:(lia)). lia.
Qed.

Lemma v_size_nonneg (v : std.vector) : 0 <= std.v_size v.
Proof. unfold std.v_size. lia. Qed.

Lemma at_in_range (v : std.vector) (n : Z) :
  0 <= n < std.v_size v ->
  exists x, std.v_elems v !! Z.to_nat n = Some x /\ std.at_ v n = Ok x.
Proof.
  intros Hn. unfold std.at_.
  destruct (Z.ltb_spec n (std.v_size v)) as [_ | ?]; [| lia].
  destruct (lookup_lt_is_Some_2 (std.v_elems v) (Z.to_nat n)) as [x Hx].
  - unfold std.v_size in Hn. lia.
  - exists x. rewrite Hx. auto.
Qed.

Lemma at_throws (v : std.vector) (n : Z) :
  std.at_ v n = Throw out_of_range <-> std.v_size v <= n.
Proof.
  unfold std.at_. destruct (Z.ltb_spec n (std.v_size v)) as [Hlt | Hge].
  - split; [| lia]. destruct (std.v_elems v !! Z.to_nat n); discriminate.
  - split; auto.
Qed.

Lemma index_in_range (v : std.vector) (n : Z) :
  0 <= n < std.v_size v ->
  exists x, std.v_elems v !! Z.to_nat n = Some x /\ std.index v n = Ok x.
Proof.
  intros Hn. unfold std.index.
  destruct (Z.ltb_spec n (std.v_size v)) as [_ | ?]; [| lia].
  destruct (lookup_lt_is_Some_2 (std.v_elems v) (Z.to_nat n)) as [x Hx].
  - unfold std.v_size in Hn. lia.
  - exists x. rewrite Hx. auto.
Qed.

Lemma front_nonempty (v : std.vector) :
  0 < std.v_size v ->
  exists x, std.v_elems v !! 0%nat = Some x /\ std.front v = Ok x.
Proof.
  unfold std.v_size, std.front. destruct (std.v_elems v) as [| x l]; simpl.
  - lia.
  - intros _. exists x. auto.
Qed.

(** ** Sizes *)

Lemma size_is_max (sw : Stopwatch.t) :
  Stopwatch.size sw = Z.max (Stopwatch.data_size sw - 1) 0.
Proof.
  unfold Stopwatch.size, Stopwatch.data_size.
  destruct (Z.ltb_spec 1 (std.v_size (Stopwatch.measurements sw))); lia.
Qed.

Lemma empty_iff_few (sw : Stopwatch.t) :
  Stopwatch.empty sw = true <-> Stopwatch.data_size sw < 2.
Proof.
  unfold Stopwatch.empty, Stopwatch.data_size. apply Z.ltb_lt.
Qed.

Lemma empty_iff_size_0 (sw : Stopwatch.t) :
  Stopwatch.empty sw = true <-> Stopwatch.size sw = 0.
Proof.
  rewrite empty_iff_few, size_is_max.
  pose proof (v_size_nonneg (Stopwatch.measurements sw)).
  unfold Stopwatch.data_size. lia.
Qed.

(** ** Truncation of [duration_cast] *)

Lemma duration_cast_truncates (num den d : Z) :
  0 < den ->
  let q := std.duration_cast num den d in
  den * Z.abs q <= Z.abs (d * num) < den * (Z.abs q + 1) /\
  (0 <= d * num -> 0 <= q) /\ (d * num <= 0 -> q <= 0).
Proof.
  intros Hden q. subst q. unfold std.duration_cast.
  set (a := d * num).
  pose proof (Z.quot_rem' a den) as Hqr.
  destruct (Z.le_gt_cases 0 a) as [Ha | Ha].
  - pose proof (Z.rem_bound_pos a den Ha Hden) as Hr.
    pose proof (Z.quot_pos a den Ha Hden) as Hq.
    repeat split; try lia; nia.
  - pose proof (Z.quot_rem' (- a) den) as Hqr'.
    pose proof (Z.rem_bound_pos (- a) den ltac:(lia) Hden) as Hr.
    pose proof (Z.quot_pos (- a) den ltac:(lia) Hden) as Hq.
    rewrite Z.quot_opp_l in Hqr', Hq by lia.
    repeat split; try lia; nia.
Qed.

(** ** [std::set_union] *)

Lemma set_union_nil_l (l2 : list Z) : std.set_union [] l2 = l2.
Proof. destruct l2; reflexivity. Qed.

Lemma set_union_nil_r (l1 : list Z) : std.set_union l1 [] = l1.
Proof. destruct l1; reflexivity. Qed.

Lemma set_union_cons (x y : Z) (l1 l2 : list Z) :
  std.set_union (x :: l1) (y :: l2) =
  if x <? y then x :: std.set_union l1 (y :: l2)
  else if y <? x then y :: std.set_union (x :: l1) l2
  else x :: std.set_union l1 l2.
Proof. reflexivity. Qed.

(** Induction along the run of [set_union]: one step for each of its
    three branches. *)
Lemma set_union_ind (P : list Z -> list Z -> list Z -> Prop) :
  (forall l2, P [] l2 l2) ->
  (forall l1, P l1 [] l1) ->
  (forall x y l1 l2, x < y ->
     P l1 (y :: l2) (std.set_union l1 (y :: l2)) ->
     P (x :: l1) (y :: l2) (x :: std.set_union l1 (y :: l2))) ->
  (forall x y l1 l2, y < x ->
     P (x :: l1) l2 (std.set_union (x :: l1) l2) ->
     P (x :: l1) (y :: l2) (y :: std.set_union (x :: l1) l2)) ->
  (forall x l1 l2,
     P l1 l2 (std.set_union l1 l2) ->
     P (x :: l1) (x :: l2) (x :: std.set_union l1 l2)) ->
  forall l1 l2, P l1 l2 (std.set_union l1 l2).
Proof.
  intros Hnil_l Hnil_r Hlt Hgt Heq.
  induction l1 as [| x l1 IH1]; intros l2.
  - rewrite set_union_nil_l. apply Hnil_l.
  - induction l2 as [| y l2 IH2].
    + rewrite set_union_nil_r. apply Hnil_r.
    + rewrite set_union_cons.
      destruct (Z.ltb_spec x y) as [Hxy | Hxy].
      * apply Hlt; auto.
      * destruct (Z.ltb_spec y x) as [Hyx | Hyx].
        -- apply Hgt; auto.
        -- assert (y = x) by lia. subst y. apply Heq; auto.
Qed.

Lemma set_union_In (l1 l2 : list Z) (z : Z) :
  In z (std.set_union l1 l2) <-> In z l1 \/ In z l2.
Proof.
  revert l1 l2.
  apply (set_union_ind (fun l1 l2 r => In z r <-> In z l1 \/ In z l2));
    simpl; intros; tauto.
Qed.

Lemma set_union_length (l1 l2 : list Z) :
  (length (std.set_union l1 l2) <= length l1 + length l2)%nat.
Proof.
  revert l1 l2.
  apply (set_union_ind
           (fun l1 l2 r => (length r <= length l1 + length l2)%nat));
    simpl; intros; lia.
Qed.

Lemma is_sorted_cons (x : Z) (l : list Z) :
  std.is_sorted (x :: l) = true <->
  Forall (Z.le x) l /\ std.is_sorted l = true.
Proof.
  revert x. induction l as [| y l IH]; intros x.
  - simpl. split; auto.
  - change (std.is_sorted (x :: y :: l))
      with (negb (y <? x) && std.is_sorted (y :: l)).
    rewrite andb_true_iff, negb_true_iff, Z.ltb_ge, Forall_cons, (IH y).
    split.
    + intros (Hxy & Hall & Hs). repeat split; auto.
      eapply Forall_impl; [exact Hall |]. simpl. intros. lia.
    + intros ((Hxy & _) & Hall & Hs). auto.
Qed.

Lemma strictly_increasing_cons (x : Z) (l : list Z) :
  strictly_increasing (x :: l) = true <->
  Forall (Z.lt x) l /\ strictly_increasing l = true.
Proof.
  revert x. induction l as [| y l IH]; intros x.
  - simpl. split; auto.
  - change (strictly_increasing (x :: y :: l))
      with ((x <? y) && strictly_increasing (y :: l)).
    rewrite andb_true_iff, Z.ltb_lt, Forall_cons, (IH y).
    split.
    + intros (Hxy & Hall & Hs). repeat split; auto.
      eapply Forall_impl; [exact Hall |]. simpl. intros. lia.
    + intros ((Hxy & _) & Hall & Hs). auto.
Qed.

Lemma strictly_increasing_is_sorted (l : list Z) :
  strictly_increasing l = true -> std.is_sorted l = true.
Proof.
  induction l as [| x l IH]; [reflexivity |].
  rewrite strictly_increasing_cons, is_sorted_cons.
  intros [Hall Hs]. split; auto.
  eapply Forall_impl; [exact Hall |]. simpl. intros. lia.
Qed.

Lemma Forall_set_union (P : Z -> Prop) (l1 l2 : list Z) :
  Forall P l1 -> Forall P l2 -> Forall P (std.set_union l1 l2).
Proof.
  rewrite !Forall_forall. intros H1 H2 z Hz.
  apply list_elem_of_In, set_union_In in Hz.
  destruct Hz as [Hz | Hz]; [apply H1 | apply H2]; apply list_elem_of_In; auto.
Qed.

Lemma set_union_sorted (l1 l2 : list Z) :
  std.is_sorted l1 = true -> std.is_sorted l2 = true ->
  std.is_sorted (std.set_union l1 l2) = true.
Proof.
  revert l1 l2.
  apply (set_union_ind
           (fun l1 l2 r => std.is_sorted l1 = true -> std.is_sorted l2 = true ->
                           std.is_sorted r = true)); auto.
  - intros x y l1 l2 Hxy IH H1 H2.
    apply is_sorted_cons in H1 as [Hall1 Hs1].
    pose proof H2 as H2'. apply is_sorted_cons in H2' as [Hall2 Hs2].
    apply is_sorted_cons. split; auto.
    apply Forall_set_union; auto.
    constructor; [lia |].
    eapply Forall_impl; [exact Hall2 |]. simpl. intros. lia.
  - intros x y l1 l2 Hxy IH H1 H2.
    pose proof H1 as H1'. apply is_sorted_cons in H1' as [Hall1 Hs1].
    apply is_sorted_cons in H2 as [Hall2 Hs2].
    apply is_sorted_cons. split; auto.
    apply Forall_set_union; auto.
    constructor; [lia |].
    eapply Forall_impl; [exact Hall1 |]. simpl. intros. lia.
  - intros x l1 l2 IH H1 H2.
    apply is_sorted_cons in H1 as [Hall1 Hs1].
    apply is_sorted_cons in H2 as [Hall2 Hs2].
    apply is_sorted_cons. split; auto.
    apply Forall_set_union; auto.
Qed.

Lemma set_union_strictly_increasing (l1 l2 : list Z) :
  strictly_increasing l1 = true -> strictly_increasing l2 = true ->
  strictly_increasing (std.set_union l1 l2) = true.
Proof.
  revert l1 l2.
  apply (set_union_ind
           (fun l1 l2 r => strictly_increasing l1 = true ->
                           strictly_increasing l2 = true ->
                           strictly_increasing r = true)); auto.
  - intros x y l1 l2 Hxy IH H1 H2.
    apply strictly_increasing_cons in H1 as [Hall1 Hs1].
    pose proof H2 as H2'. apply strictly_increasing_cons in H2' as [Hall2 Hs2].
    apply strictly_increasing_cons. split; auto.
    apply Forall_set_union; auto.
    constructor; [lia |].
    eapply Forall_impl; [exact Hall2 |]. simpl. intros. lia.
  - intros x y l1 l2 Hxy IH H1 H2.
    pose proof H1 as H1'. apply strictly_increasing_cons in H1' as [Hall1 Hs1].
    apply strictly_increasing_cons in H2 as [Hall2 Hs2].
    apply strictly_increasing_cons. split; auto.
    apply Forall_set_union; auto.
    constructor; [lia |].
    eapply Forall_impl; [exact Hall1 |]. simpl. intros. lia.
  - intros x l1 l2 IH H1 H2.
    apply strictly_increasing_cons in H1 as [Hall1 Hs1].
    apply strictly_increasing_cons in H2 as [Hall2 Hs2].
    apply strictly_increasing_cons. split; auto.
    apply Forall_set_union; auto.
Qed.

Lemma occurrences_below (x z : Z) (l : list Z) :
  Forall (Z.le x) l -> z < x -> occurrences l z = 0%nat.
Proof.
  intros Hall Hz. apply count_occ_not_In. intros Hin.
  rewrite Forall_forall in Hall.
  apply list_elem_of_In, Hall in Hin. lia.
Qed.

(** Each time point occurs in the union as often as in the sequence that
    has it more often. *)
Lemma set_union_occurrences (l1 l2 : list Z) (z : Z) :
  std.is_sorted l1 = true -> std.is_sorted l2 = true ->
  occurrences (std.set_union l1 l2) z =
  Nat.max (occurrences l1 z) (occurrences l2 z).
Proof.
  revert l1 l2.
  apply (set_union_ind
           (fun l1 l2 r => std.is_sorted l1 = true -> std.is_sorted l2 = true ->
                           occurrences r z =
                           Nat.max (occurrences l1 z) (occurrences l2 z))).
  - intros l2 _ _. simpl. reflexivity.
  - intros l1 _ _. simpl. lia.
  - intros x y l1 l2 Hxy IH H1 H2.
    apply is_sorted_cons in H1 as [Hall1 Hs1].
    specialize (IH Hs1 H2). apply is_sorted_cons in H2 as [Hall2 Hs2].
    destruct (Z.eq_dec x z) as [-> | Hne].
    + rewrite (count_occ_cons_eq _ l1 (eq_refl z)).
      rewrite (count_occ_cons_eq _ (std.set_union _ _) (eq_refl z)), IH.
      assert (occurrences (y :: l2) z = 0%nat) as ->; [| lia].
      apply (occurrences_below y); [constructor; [lia | auto] | lia].
    + rewrite (count_occ_cons_neq _ l1 Hne), (count_occ_cons_neq _ _ Hne). exact IH.
  - intros x y l1 l2 Hxy IH H1 H2.
    apply is_sorted_cons in H2 as [Hall2 Hs2].
    specialize (IH H1 Hs2). apply is_sorted_cons in H1 as [Hall1 Hs1].
    destruct (Z.eq_dec y z) as [-> | Hne].
    + rewrite (count_occ_cons_eq _ l2 (eq_refl z)).
      rewrite (count_occ_cons_eq _ (std.set_union _ _) (eq_refl z)), IH.
      assert (occurrences (x :: l1) z = 0%nat) as ->; [| lia].
      apply (occurrences_below x); [constructor; [lia | auto] | lia].
    + rewrite (count_occ_cons_neq _ l2 Hne), (count_occ_cons_neq _ _ Hne). exact IH.
  - intros x l1 l2 IH H1 H2.
    apply is_sorted_cons in H1 as [Hall1 Hs1].
    apply is_sorted_cons in H2 as [Hall2 Hs2].
    specialize (IH Hs1 Hs2).
    destruct (Z.eq_dec x z) as [-> | Hne].
    + rewrite !count_occ_cons_eq by reflexivity. rewrite IH. lia.
    + rewrite !(count_occ_cons_neq _ _ Hne). exact IH.
Qed.

(** A sorted sequence is determined by how often it holds each time
    point. *)
Lemma sorted_occurrences_eq (l1 l2 : list Z) :
  std.is_sorted l1 = true -> std.is_sorted l2 = true ->
  (forall z, occurrences l1 z = occurrences l2 z) ->
  l1 = l2.
Proof.
  revert l2. induction l1 as [| x l1 IH]; intros l2 H1 H2 Hocc.
  - destruct l2 as [| y l2]; [reflexivity |].
    specialize (Hocc y). rewrite count_occ_cons_eq in Hocc by reflexivity.
    simpl in Hocc. discriminate.
  - destruct l2 as [| y l2].
    + specialize (Hocc x). rewrite count_occ_cons_eq in Hocc by reflexivity.
      simpl in Hocc. discriminate.
    + apply is_sorted_cons in H1 as [Hall1 Hs1].
      apply is_sorted_cons in H2 as [Hall2 Hs2].
      assert (x = y) as <-.
      { destruct (Z.lt_trichotomy x y) as [Hlt | [Heq | Hgt]]; [| exact Heq |].
        - specialize (Hocc x).
          rewrite count_occ_cons_eq in Hocc by reflexivity.
          rewrite (occurrences_below y x (y :: l2)) in Hocc;
            [discriminate | constructor; [lia | auto] | lia].
        - specialize (Hocc y).
          rewrite (count_occ_cons_eq _ l2 (eq_refl y)) in Hocc.
          rewrite (occurrences_below x y (x :: l1)) in Hocc;
            [discriminate | constructor; [lia | auto] | lia]. }
      f_equal. apply IH; auto.
      intros z. specialize (Hocc z).
      destruct (Z.eq_dec x z) as [-> | Hne].
      * rewrite !count_occ_cons_eq in Hocc by reflexivity. lia.
      * rewrite !(count_occ_cons_neq _ _ Hne) in Hocc. exact Hocc.
Qed.

(** Interleaving a sequence into a union it is already part of changes
    nothing. *)
Lemma set_union_absorb (l1 l2 : list Z) :
  std.is_sorted l1 = true -> std.is_sorted l2 = true ->
  std.set_union l2 (std.set_union l1 l2) = std.set_union l1 l2.
Proof.
  intros H1 H2.
  pose proof (set_union_sorted l1 l2 H1 H2) as H12.
  apply sorted_occurrences_eq; auto.
  - apply set_union_sorted; auto.
  - intros z. rewrite !set_union_occurrences by auto. lia.
Qed.

Lemma set_union_self (l : list Z) :
  std.is_sorted l = true -> std.set_union l l = l.
Proof.
  intros H. apply sorted_occurrences_eq; auto.
  - apply set_union_sorted; auto.
  - intros z. rewrite set_union_occurrences by auto. lia.
Qed.

(** ** Vectors and the allocator *)

Lemma block_ok_mono (h h' : heap) (v : std.vector) :
  block_ok h v -> h <= h' -> block_ok h' v.
Proof. unfold block_ok. intros. lia. Qed.

Lemma block_ok_default (h : heap) : block_ok h std.vector_default.
Proof. unfold block_ok, std.vector_default, std.v_size, null. simpl. lia. Qed.

Lemma moves_reserve (n : Z) (v : std.vector) :
  moves v (std.v_elems v) (std.reserve n v).
Proof.
  intros h Hh Hv. unfold std.reserve.
  destruct (Z.ltb_spec (std.v_cap v) n) as [Hlt | Hge]; alloc_simpl;
    block_solver.
Qed.

Lemma moves_emplace_back (x : Z) (v : std.vector) :
  moves v (std.v_elems v ++ [x]) (std.emplace_back x v).
Proof.
  intros h Hh Hv. unfold std.emplace_back.
  destruct (Z.ltb_spec (std.v_size v) (std.v_cap v)) as [Hlt | Hge]; alloc_simpl;
    block_solver.
Qed.

Lemma placed_trans (h h1 : heap) (u v v' : std.vector) :
  placed h u v -> h <= h1 -> placed h1 v v' -> placed h u v'.
Proof. unfold placed. intros. lia. Qed.

Lemma moves_back_insert (xs : list Z) (v : std.vector) :
  moves v (std.v_elems v ++ xs) (std.back_insert xs v).
Proof.
  revert v. induction xs as [| x xs IH]; intros v h Hh Hv; simpl.
  - alloc_simpl. rewrite app_nil_r.
    split; [reflexivity |]. split; [lia |]. split; [exact Hv |].
    left. auto.
  - unfold bind.
    pose proof (moves_emplace_back x v h Hh Hv) as (He & Hle & Hok & Hpl).
    destruct (std.emplace_back x v h) as [v1 h1]. simpl in *.
    pose proof (IH v1 h1 ltac:(lia) Hok) as (He' & Hle' & Hok' & Hpl').
    rewrite He', He, <- app_assoc. simpl.
    split; [reflexivity |]. split; [lia |]. split; [exact Hok' |].
    eapply placed_trans; eauto.
Qed.

Lemma moves_copy (u v : std.vector) :
  moves u (std.v_elems v) (std.copy v).
Proof.
  intros h Hh Hu. unfold std.copy.
  destruct (Z.eqb_spec (std.v_size v) 0) as [Hz | Hnz]; alloc_simpl.
  - unfold std.v_size in Hz. destruct (std.v_elems v); [| simpl in Hz; lia].
    block_solver.
  - block_solver.
Qed.

(** ** The member functions that allocate *)

Lemma sw_moves_ctor (mode_in : bool) :
  sw_moves std.vector_default [] mode_in (Stopwatch.ctor mode_in).
Proof.
  intros h Hh Hu. unfold Stopwatch.ctor, bind.
  pose proof (moves_reserve 2 std.vector_default h Hh Hu) as (He & Hle & Hok & Hpl).
  destruct (std.reserve 2 std.vector_default h) as [v1 h1]. simpl in *.
  unfold Stopwatch.data. simpl. auto.
Qed.

Lemma sw_moves_ctor_reserve (res : Z) (mode_in : bool) :
  sw_moves std.vector_default [] mode_in (Stopwatch.ctor_reserve res mode_in).
Proof.
  intros h Hh Hu. unfold Stopwatch.ctor_reserve, bind.
  pose proof (moves_reserve (to_size_t (res + 1)) std.vector_default h Hh Hu)
    as (He & Hle & Hok & Hpl).
  destruct (std.reserve (to_size_t (res + 1)) std.vector_default h) as [v1 h1].
  simpl in *. unfold Stopwatch.data. simpl. auto.
Qed.

Lemma sw_moves_record (now : Z) (sw : Stopwatch.t) :
  sw_moves (Stopwatch.measurements sw) (Stopwatch.data sw ++ [now])
           (Stopwatch.sw_mode sw) (Stopwatch.record now sw).
Proof.
  intros h Hh Hu. unfold Stopwatch.record, bind.
  pose proof (moves_emplace_back now (Stopwatch.measurements sw) h Hh Hu)
    as (He & Hle & Hok & Hpl).
  destruct (std.emplace_back now (Stopwatch.measurements sw) h) as [v1 h1].
  simpl in *. unfold Stopwatch.data. simpl. auto.
Qed.

Lemma sw_moves_clear (sw : Stopwatch.t) :
  sw_moves (Stopwatch.measurements sw) [] (Stopwatch.sw_mode sw)
           (ret (Stopwatch.clear sw)).
Proof.
  intros h Hh Hu. unfold ret, Stopwatch.clear, Stopwatch.data, std.clear. simpl.
  pose proof (v_size_nonneg (Stopwatch.measurements sw)).
  split; [reflexivity |]. split; [reflexivity |]. split; [lia |].
  split; block_solver.
Qed.

Lemma sw_moves_set_mode (mode_in : bool) (sw : Stopwatch.t) :
  sw_moves (Stopwatch.measurements sw) (Stopwatch.data sw) mode_in
           (ret (Stopwatch.set_mode mode_in sw)).
Proof.
  intros h Hh Hu. unfold ret, Stopwatch.set_mode, Stopwatch.data. simpl.
  split; [reflexivity |]. split; [reflexivity |]. split; [lia |].
  split; [exact Hu |]. left. auto.
Qed.

Lemma sw_moves_plus_assign (this other : Stopwatch.t) :
  sw_moves std.vector_default
           (std.set_union (Stopwatch.data this) (Stopwatch.data other))
           (Stopwatch.sw_mode this)
           (Stopwatch.operator_plus_assign this other).
Proof.
  intros h Hh Hu. unfold Stopwatch.operator_plus_assign, bind.
  match goal with |- context [std.reserve ?n _ h] =>
    pose proof (moves_reserve n std.vector_default h Hh Hu)
      as (He & Hle & Hok & Hpl);
    destruct (std.reserve n std.vector_default h) as [v1 h1]
  end.
  simpl in *.
  match goal with |- context [std.back_insert ?xs v1 h1] =>
    pose proof (moves_back_insert xs v1 h1 ltac:(lia) Hok)
      as (He' & Hle' & Hok' & Hpl');
    destruct (std.back_insert xs v1 h1) as [v2 h2]
  end.
  simpl in *. unfold Stopwatch.data in *. simpl. rewrite He', He. simpl.
  split; [reflexivity |]. split; [reflexivity |]. split; [lia |].
  split; [exact Hok' |]. eapply placed_trans; eauto.
Qed.

Lemma sw_moves_plus (this other : Stopwatch.t) :
  sw_moves std.vector_default
           (std.set_union (Stopwatch.data this) (Stopwatch.data other))
           (Stopwatch.sw_mode this)
           (Stopwatch.operator_plus this other).
Proof.
  intros h Hh Hu. unfold Stopwatch.operator_plus, bind.
  pose proof (moves_copy std.vector_default (Stopwatch.measurements this) h Hh Hu)
    as (He & Hle & Hok & Hpl).
  destruct (std.copy (Stopwatch.measurements this) h) as [v1 h1]. simpl in *.
  match goal with |- context [Stopwatch.operator_plus_assign ?t other h1] =>
    pose proof (sw_moves_plus_assign t other h1 ltac:(lia)
                  (block_ok_default h1)) as (Hd & Hm & Hle' & Hok' & Hpl');
    destruct (Stopwatch.operator_plus_assign t other h1) as [temp h2]
  end.
  simpl in *.
  pose proof (moves_copy std.vector_default (Stopwatch.measurements temp) h2
                ltac:(lia) (block_ok_default h2)) as (He3 & Hle3 & Hok3 & Hpl3).
  destruct (std.copy (Stopwatch.measurements temp) h2) as [v3 h3]. simpl in *.
  unfold Stopwatch.data in *. simpl in *. rewrite He3, Hd, He.
  split; [reflexivity |]. split; [exact Hm |]. split; [lia |].
  split; [exact Hok3 |]. unfold placed in *. simpl in *. lia.
Qed.

(** ** Program states *)

Lemma world_ok_init : world_ok world_init.
Proof.
  unfold world_ok, world_init, heap_init. simpl.
  split; [lia |]. split.
  - intros x sw Hx. rewrite lookup_empty in Hx. discriminate.
  - intros x y A B _ HA. rewrite lookup_empty in HA. discriminate.
Qed.

Lemma apart_sym (u v : std.vector) : apart u v -> apart v u.
Proof. unfold apart. intros H Hv Hu. specialize (H Hu Hv). lia. Qed.

(** A vector placed by an operation on the vector of [x] keeps clear of
    the blocks of the other stopwatches. *)
Lemma placed_apart (h : heap) (u v' b : std.vector) :
  placed h u v' -> block_ok h b -> apart u b -> apart v' b.
Proof.
  unfold placed, block_ok, apart. intros Hpl Hb Hub Hv' Hcb.
  destruct Hpl as [[Hd Hc] | [Hc | Hfresh]]; [| lia | lia].
  rewrite Hd, Hc in *. apply Hub; lia.
Qed.

Lemma apart_default (b : std.vector) : apart std.vector_default b.
Proof. unfold apart, std.vector_default. simpl. lia. Qed.

Lemma store_ok (x : nat) (m : Alloc Stopwatch.t) (w : world)
    (u : std.vector) (xs : list Z) (md : bool) :
  world_ok w ->
  sw_moves u xs md m ->
  u = std.vector_default \/
  (exists old, w_objs w !! x = Some old /\ Stopwatch.measurements old = u) ->
  world_ok (store x m w).
Proof.
  intros (Hh & Hblocks & Hapart) Hm Hu. unfold store.
  assert (block_ok (w_heap w) u) as Hbu.
  { destruct Hu as [-> | (old & Hold & <-)];
      [apply block_ok_default | eapply Hblocks; eauto]. }
  assert (forall y B, y <> x -> w_objs w !! y = Some B ->
                      apart u (Stopwatch.measurements B)) as Hau.
  { intros y B Hy HB. destruct Hu as [-> | (old & Hold & <-)];
      [apply apart_default | eapply (Hapart x y); eauto]. }
  pose proof (Hm (w_heap w) Hh Hbu) as (_ & _ & Hle & Hok & Hpl).
  destruct (m (w_heap w)) as [sw h']. unfold world_ok. simpl in *.
  split; [lia |]. split.
  - intros y sw0 Hy. destruct (decide (x = y)) as [<- | Hne].
    + rewrite lookup_insert_eq in Hy. inversion Hy; subst. exact Hok.
    + rewrite lookup_insert_ne in Hy by auto.
      eapply block_ok_mono; [eapply Hblocks; eauto | lia].
  - intros y z A B Hyz HA HB.
    destruct (decide (x = y)) as [<- | Hxy];
      destruct (decide (x = z)) as [<- | Hxz]; try congruence.
    + rewrite lookup_insert_eq in HA. rewrite lookup_insert_ne in HB by auto.
      inversion HA; subst.
      apply (placed_apart (w_heap w) u); [exact Hpl | eapply Hblocks; eauto |].
      apply (Hau z); auto.
    + rewrite lookup_insert_eq in HB. rewrite lookup_insert_ne in HA by auto.
      inversion HB; subst. apply apart_sym.
      apply (placed_apart (w_heap w) u); [exact Hpl | eapply Hblocks; eauto |].
      apply (Hau y); auto.
    + rewrite lookup_insert_ne in HA, HB by auto. apply (Hapart y z); auto.
Qed.

Lemma step_ok (w w' : world) (o : op) :
  world_ok w -> step w o = Some w' -> world_ok w'.
Proof.
  intros Hw Hstep. destruct o as [x md | x res md | x now | x | x md | x y | z x y];
    simpl in Hstep.
  - inversion Hstep; subst. eapply store_ok; eauto using sw_moves_ctor.
  - inversion Hstep; subst. eapply store_ok; eauto using sw_moves_ctor_reserve.
  - destruct (w_objs w !! x) as [sw |] eqn:Hx; simpl in Hstep; [| discriminate].
    inversion Hstep; subst. eapply store_ok; eauto using sw_moves_record.
  - destruct (w_objs w !! x) as [sw |] eqn:Hx; simpl in Hstep; [| discriminate].
    inversion Hstep; subst. eapply store_ok; eauto using sw_moves_clear.
  - destruct (w_objs w !! x) as [sw |] eqn:Hx; simpl in Hstep; [| discriminate].
    inversion Hstep; subst. eapply store_ok; eauto using sw_moves_set_mode.
  - destruct (w_objs w !! x) as [this |] eqn:Hx; simpl in Hstep; [| discriminate].
    destruct (w_objs w !! y) as [other |] eqn:Hy; simpl in Hstep; [| discriminate].
    inversion Hstep; subst. eapply store_ok; eauto using sw_moves_plus_assign.
  - destruct (w_objs w !! x) as [this |] eqn:Hx; simpl in Hstep; [| discriminate].
    destruct (w_objs w !! y) as [other |] eqn:Hy; simpl in Hstep; [| discriminate].
    inversion Hstep; subst. eapply store_ok; eauto using sw_moves_plus.
Qed.





(** ** What the allocating operations leave in the vector

    These facts hold on every allocator state. *)

Lemma reserve_elems (n : Z) (v : std.vector) (h : heap) :
  std.v_elems (std.reserve n v h).1 = std.v_elems v.
Proof.
  unfold std.reserve. destruct (std.v_cap v <? n); reflexivity.
Qed.

Lemma emplace_back_elems (x : Z) (v : std.vector) (h : heap) :
  std.v_elems (std.emplace_back x v h).1 = std.v_elems v ++ [x].
Proof.
  unfold std.emplace_back. destruct (std.v_size v <? std.v_cap v); reflexivity.
Qed.

Lemma back_insert_elems (xs : list Z) (v : std.vector) (h : heap) :
  std.v_elems (std.back_insert xs v h).1 = std.v_elems v ++ xs.
Proof.
  revert v h. induction xs as [| x xs IH]; intros v h; simpl.
  - unfold ret. simpl. rewrite app_nil_r. reflexivity.
  - unfold bind. pose proof (emplace_back_elems x v h) as He.
    destruct (std.emplace_back x v h) as [v1 h1]. simpl in He.
    rewrite IH, He, <- app_assoc. reflexivity.
Qed.

Lemma copy_elems (v : std.vector) (h : heap) :
  std.v_elems (std.copy v h).1 = std.v_elems v.
Proof.
  unfold std.copy. destruct (Z.eqb_spec (std.v_size v) 0) as [Hz | Hnz].
  - unfold std.v_size in Hz. destruct (std.v_elems v); [reflexivity |].
    simpl in Hz. lia.
  - reflexivity.
Qed.

Lemma record_result (now : Z) (sw : Stopwatch.t) (h : heap) :
  Stopwatch.data (Stopwatch.record now sw h).1 = Stopwatch.data sw ++ [now] /\
  Stopwatch.mode (Stopwatch.record now sw h).1 = Stopwatch.mode sw.
Proof.
  unfold Stopwatch.record, bind.
  pose proof (emplace_back_elems now (Stopwatch.measurements sw) h) as He.
  destruct (std.emplace_back now (Stopwatch.measurements sw) h) as [v1 h1].
  simpl in *. unfold Stopwatch.data. simpl. auto.
Qed.

Lemma plus_assign_result (this other : Stopwatch.t) (h : heap) :
  Stopwatch.data (Stopwatch.operator_plus_assign this other h).1 =
    std.set_union (Stopwatch.data this) (Stopwatch.data other) /\
  Stopwatch.mode (Stopwatch.operator_plus_assign this other h).1 =
    Stopwatch.mode this.
Proof.
  unfold Stopwatch.operator_plus_assign, bind.
  match goal with |- context [std.reserve ?n ?v h] =>
    pose proof (reserve_elems n v h) as He;
    destruct (std.reserve n v h) as [v1 h1]
  end.
  match goal with |- context [std.back_insert ?xs v1 h1] =>
    pose proof (back_insert_elems xs v1 h1) as He';
    destruct (std.back_insert xs v1 h1) as [v2 h2]
  end.
  simpl in *. unfold Stopwatch.data. simpl. rewrite He', He. auto.
Qed.

Lemma plus_result (this other : Stopwatch.t) (h : heap) :
  Stopwatch.data (Stopwatch.operator_plus this other h).1 =
    std.set_union (Stopwatch.data this) (Stopwatch.data other) /\
  Stopwatch.mode (Stopwatch.operator_plus this other h).1 =
    Stopwatch.mode this.
Proof.
  unfold Stopwatch.operator_plus, bind.
  pose proof (copy_elems (Stopwatch.measurements this) h) as He.
  destruct (std.copy (Stopwatch.measurements this) h) as [v1 h1].
  match goal with |- context [Stopwatch.operator_plus_assign ?t other h1] =>
    pose proof (plus_assign_result t other h1) as [Hd Hm];
    destruct (Stopwatch.operator_plus_assign t other h1) as [temp h2]
  end.
  pose proof (copy_elems (Stopwatch.measurements temp) h2) as He3.
  destruct (std.copy (Stopwatch.measurements temp) h2) as [v3 h3].
  simpl in *. unfold Stopwatch.data, Stopwatch.mode in *. simpl in *.
  rewrite He3, Hd, He. auto.
Qed.

Lemma store_heap (x : nat) (m : Alloc Stopwatch.t) (w : world) :
  w_heap (store x m w) = (m (w_heap w)).2.
Proof. unfold store. destruct (m (w_heap w)). reflexivity. Qed.

Lemma store_lookup_eq (x : nat) (m : Alloc Stopwatch.t) (w : world) :
  w_objs (store x m w) !! x = Some (m (w_heap w)).1.
Proof.
  unfold store. destruct (m (w_heap w)). simpl. apply lookup_insert_eq.
Qed.

Lemma store_lookup_ne (x y : nat) (m : Alloc Stopwatch.t) (w : world) :
  x <> y -> w_objs (store x m w) !! y = w_objs w !! y.
Proof.
  intros Hne. unfold store. destruct (m (w_heap w)). simpl.
  apply lookup_insert_ne. exact Hne.
Qed.

Lemma step_frame (w w' : world) (o : op) (y : nat) :
  step w o = Some w' -> target o <> y -> w_objs w' !! y = w_objs w !! y.
Proof.
  intros Hstep Hy.
  destruct o as [x md | x res md | x now | x | x md | x z | x z1 z2];
    simpl in *;
    repeat match type of Hstep with
           | context [w_objs w !! ?k] =>
               destruct (w_objs w !! k) eqn:?; simpl in Hstep; [| discriminate]
           end;
    inversion Hstep; subst; apply store_lookup_ne; exact Hy.
Qed.

Lemma set_mode_id (sw : Stopwatch.t) :
  Stopwatch.set_mode (Stopwatch.sw_mode sw) sw = sw.
Proof. destruct sw. reflexivity. Qed.

(** ** The arithmetic of the machine *)

Lemma in_rep_spec (z : Z) : in_rep z = true <-> - 2 ^ 63 <= z < 2 ^ 63.
Proof. unfold in_rep. rewrite andb_true_iff, Z.leb_le, Z.ltb_lt. tauto. Qed.

Lemma rep_fits (z : Z) : in_rep z = true -> rep z = Ok z.
Proof. unfold rep. intros ->. reflexivity. Qed.

Lemma duration_cast_rep_fits (num den d : Z) :
  in_rep (d * num) = true ->
  std.duration_cast_rep num den d = Ok (std.duration_cast num den d).
Proof.
  intros H. unfold std.duration_cast_rep, std.duration_cast.
  rewrite (rep_fits _ H). reflexivity.
Qed.

Lemma plus_one_no_throw (ty : integral) (index : Z) (e : exn) :
  plus_one ty index <> Throw e.
Proof.
  unfold plus_one.
  destruct (int_bits ty <? 32); [discriminate |].
  destruct (int_signed ty); [| discriminate].
  destruct (index + 1 <=? int_max ty); discriminate.
Qed.

(** The exact arithmetic of [operator_index] is that of the machine
    wherever the machine computes a result: for an argument of a 64-bit
    type, or one whose increment does not leave its type, what
    [operator_index_typed] returns or throws is what [operator_index]
    returns or throws. *)
Lemma operator_index_typed_agrees (num den : Z) (ty : integral)
    (sw : Stopwatch.t) (index : Z) :
  int_bits ty = 64 \/ plus_one ty index = Ok (index + 1) ->
  (forall d, Stopwatch.operator_index_typed num den ty sw index = Ok d ->
             Stopwatch.operator_index num den sw index = Ok d) /\
  (forall e, Stopwatch.operator_index_typed num den ty sw index = Throw e ->
             Stopwatch.operator_index num den sw index = Throw e).
Proof.
  intros Hty.
  unfold Stopwatch.operator_index_typed, Stopwatch.operator_index.
  destruct (plus_one ty index) as [i1 | e1 | ] eqn:Hplus; simpl;
    [| exfalso; apply (plus_one_no_throw _ _ _ Hplus)
     | split; intros ? H; discriminate H].
  assert (to_size_t i1 = to_size_t (index + 1)) as ->.
  { destruct Hty as [Hbits | Hfit]; [| congruence].
    unfold plus_one in Hplus. rewrite Hbits in Hplus. simpl in Hplus.
    destruct (int_signed ty).
    - destruct (index + 1 <=? int_max ty); inversion Hplus; reflexivity.
    - inversion Hplus. unfold to_size_t. apply Z.mod_mod. lia. }
  destruct (std.at_ (Stopwatch.measurements sw) (to_size_t (index + 1)))
    as [end_ | e | ]; simpl; [| split; intros ? H; solve [exact H | discriminate H] ..].
  destruct (if Bool.eqb (Stopwatch.sw_mode sw) Stopwatch.SPLIT_MODE
            then std.index (Stopwatch.measurements sw) (to_size_t index)
            else std.front (Stopwatch.measurements sw))
    as [begin | e | ]; simpl; [| split; intros ? H; solve [exact H | discriminate H] ..].
  unfold std.duration_cast_rep, std.duration_cast.
  unfold rep.
  destruct (in_rep (end_ - begin)); simpl;
    [| split; intros ? H; discriminate H].
  destruct (in_rep ((end_ - begin) * num)); simpl;
    split; intros ? H; solve [exact H | discriminate H].
Qed.

(** The snapshots an index in range works on, and what [operator[]]
    computes from them on the machine when the difference and its product
    fit. *)
Lemma operator_index_typed_value (ty : integral) (sw : Stopwatch.t) (i : Z) :
  Stopwatch.data_size sw <= SIZE_MAX ->
  0 <= i < Stopwatch.size sw ->
  plus_one ty i = Ok (i + 1) ->
  exists first a b,
    Stopwatch.data sw !! 0%nat = Some first /\
    Stopwatch.data sw !! Z.to_nat i = Some a /\
    Stopwatch.data sw !! Z.to_nat (i + 1) = Some b /\
    forall (num den : Z) (md : bool),
      in_rep (b - (if md then a else first)) = true ->
      in_rep ((b - (if md then a else first)) * num) = true ->
      Stopwatch.operator_index_typed num den ty (Stopwatch.set_mode md sw) i =
      Ok (std.duration_cast num den (b - (if md then a else first))).
Proof.
  intros Hmax Hi Hplus.
  rewrite size_is_max in Hi. unfold Stopwatch.data_size, Stopwatch.data in *.
  set (v := Stopwatch.measurements sw) in *.
  destruct (front_nonempty v ltac:(lia)) as (first & Hf0 & Hfront).
  destruct (at_in_range v (i + 1) ltac:(lia)) as (b & Hb & Hatb).
  destruct (index_in_range v i ltac:(lia)) as (a & Ha & Hidx).
  exists first, a, b. splits; auto.
  intros num den md Hd Hp. unfold Stopwatch.operator_index_typed. simpl. fold v.
  rewrite Hplus. simpl.
  rewrite (to_size_t_small i), (to_size_t_small (i + 1)) by lia.
  rewrite Hatb. simpl. destruct md; simpl.
  - rewrite Hidx. simpl. rewrite (rep_fits _ Hd). simpl.
    apply duration_cast_rep_fits. exact Hp.
  - rewrite Hfront. simpl. rewrite (rep_fits _ Hd). simpl.
    apply duration_cast_rep_fits. exact Hp.
Qed.

(** * The claims *)

Section IndexedAccess.

Variables cf_num cf_den : Z.

(** C1.  For a stopwatch whose snapshot count fits [size_t], every
    integral type [ty] of the index and every index [i] in [[0, size())]
    whose increment [ty] (or [int], for a narrower type) holds:
    [operator[]], computed in the arithmetic of the machine, returns in
    split mode the clock difference of snapshots [i] and [i + 1] and in
    elapse mode that of snapshots [0] and [i + 1], both as read by the
    checked [data(index)], converted by [duration_cast], whenever that
    difference and its product with the numerator of the period ratio
    fit the 64-bit representation; and [duration_cast] keeps the whole
    units of the exact quotient, rounding towards zero. *)
Theorem operator_index_duration (ty : integral) (sw : Stopwatch.t) (i : Z) :
  Stopwatch.data_size sw <= SIZE_MAX ->
  0 <= i < Stopwatch.size sw ->
  in_type ty i = true ->
  plus_one ty i = Ok (i + 1) ->
  exists first a b,
    Stopwatch.data_at sw 0 = Ok first /\
    Stopwatch.data_at sw i = Ok a /\
    Stopwatch.data_at sw (i + 1) = Ok b /\
    (Stopwatch.mode sw = Stopwatch.SPLIT_MODE ->
     in_rep (b - a) = true -> in_rep ((b - a) * cf_num) = true ->
     Stopwatch.operator_index_typed cf_num cf_den ty sw i =
       Ok (std.duration_cast cf_num cf_den (b - a))) /\
    (Stopwatch.mode sw = Stopwatch.ELAPSE_MODE ->
     in_rep (b - first) = true -> in_rep ((b - first) * cf_num) = true ->
     Stopwatch.operator_index_typed cf_num cf_den ty sw i =
       Ok (std.duration_cast cf_num cf_den (b - first))) /\
    (0 < cf_den ->
     forall d, let q := std.duration_cast cf_num cf_den d in
       cf_den * Z.abs q <= Z.abs (d * cf_num) < cf_den * (Z.abs q + 1) /\
       (0 <= d * cf_num -> 0 <= q) /\ (d * cf_num <= 0 -> q <= 0)).
Proof.
  intros Hmax Hi _ Hplus.
  destruct (operator_index_typed_value ty sw i Hmax Hi Hplus)
    as (first & a & b & H0 & Ha & Hb & Hval).
  rewrite size_is_max in Hi. unfold Stopwatch.data_size, Stopwatch.data in *.
  set (v := Stopwatch.measurements sw) in *.
  destruct (at_in_range v 0 ltac:(lia)) as (first' & Hf0' & Hat0).
  destruct (at_in_range v i ltac:(lia)) as (a' & Ha' & Hata).
  destruct (at_in_range v (i + 1) ltac:(lia)) as (b' & Hb' & Hatb).
  change (Z.to_nat 0) with 0%nat in Hf0'.
  assert (first' = first) as -> by congruence.
  assert (a' = a) as -> by congruence.
  assert (b' = b) as -> by congruence.
  exists first, a, b.
  unfold Stopwatch.data_at. fold v.
  rewrite (to_size_t_small 0), (to_size_t_small i), (to_size_t_small (i + 1))
    by lia.
  split; [exact Hat0 |]. split; [exact Hata |]. split; [exact Hatb |].
  split; [| split].
  - intros Hm Hd Hp. rewrite <- (set_mode_id sw).
    unfold Stopwatch.mode in Hm. rewrite Hm.
    exact (Hval cf_num cf_den true Hd Hp).
  - intros Hm Hd Hp. rewrite <- (set_mode_id sw).
    unfold Stopwatch.mode in Hm. rewrite Hm.
    exact (Hval cf_num cf_den false Hd Hp).
  - intros Hden d. apply duration_cast_truncates. exact Hden.
Qed.

End IndexedAccess.

(** The stopwatch of the scenario in the specification: snapshots at 0 ms,
    10 ms and 25 ms on a nanosecond clock, reported in milliseconds and
    indexed by an [unsigned]. *)
Lemma operator_index_duration_witness :
  Stopwatch.operator_index_typed 1 1000000 (Integral false 32)
    (Stopwatch.Make (std.Vector 1 3 [0; 10000000; 25000000])
                    Stopwatch.ELAPSE_MODE) 1 = Ok 25.
Proof.
  destruct (operator_index_duration 1 1000000 (Integral false 32)
              (Stopwatch.Make (std.Vector 1 3 [0; 10000000; 25000000])
                              Stopwatch.ELAPSE_MODE) 1)
    as (first & a & b & H0 & Ha & Hb & _ & Helapse & _).
  - vm_compute. discriminate.
  - vm_compute. split; [discriminate | reflexivity].
  - reflexivity.
  - reflexivity.
  - vm_compute in H0, Hb. inversion H0. inversion Hb. subst.
    apply Helapse; reflexivity.
Defined.

(** Past the 64-bit representation the machine has no defined result
    where the exact arithmetic has one: two snapshots [10^10] ticks
    apart with a period ratio of [10^9]. *)
Example operator_index_overflow :
  let sw := Stopwatch.Make (std.Vector 1 2 [0; 10000000000]) Stopwatch.SPLIT_MODE in
  Stopwatch.operator_index_typed 1000000000 1 (Integral false 64) sw 0 = Undefined /\
  Stopwatch.operator_index 1000000000 1 sw 0 = Ok 10000000000000000000.
Proof. vm_compute. auto. Qed.

Example operator_index_scenario :
  let sw := Stopwatch.Make (std.Vector 1 3 [0; 10000000; 25000000])
                           Stopwatch.SPLIT_MODE in
  Stopwatch.operator_index 1 1000000 sw 0 = Ok 10 /\
  Stopwatch.operator_index 1 1000000 sw 1 = Ok 15 /\
  Stopwatch.operator_index 1 1000000
    (Stopwatch.set_mode Stopwatch.ELAPSE_MODE sw) 1 = Ok 25 /\
  Stopwatch.operator_index 1 1000000 sw 2 = Throw out_of_range.
Proof. vm_compute. auto. Qed.

(** [data(index)] throws exactly outside [[0, data_size())], for an index
    of a 64-bit integral type and a snapshot count that fits the signed
    one. *)
Lemma data_at_throws (sw : Stopwatch.t) (index : Z) :
  Stopwatch.data_size sw <= 2 ^ 63 ->
  - 2 ^ 63 <= index <= SIZE_MAX ->
  Stopwatch.data_at sw index = Throw out_of_range <->
  ~ (0 <= index < Stopwatch.data_size sw).
Proof.
  intros Hmax Hi. unfold Stopwatch.data_at, Stopwatch.data_size in *.
  rewrite at_throws. unfold SIZE_MAX in Hi.
  destruct (Z.le_gt_cases 0 index) as [Hpos | Hneg].
  - rewrite to_size_t_small by (unfold SIZE_MAX; lia). lia.
  - assert (to_size_t index = index + 2 ^ 64) as ->.
    { unfold to_size_t. symmetry.
      apply (Z.mod_unique index (2 ^ 64) (-1)); lia. }
    lia.
Qed.

(** [operator[]] throws exactly when [index + 1], as a [size_t], is no
    index into the snapshots. *)
Lemma operator_index_throws (num den : Z) (sw : Stopwatch.t) (index : Z) :
  Stopwatch.operator_index num den sw index = Throw out_of_range <->
  Stopwatch.data_size sw <= to_size_t (index + 1).
Proof.
  unfold Stopwatch.operator_index, Stopwatch.data_size.
  rewrite <- at_throws.
  destruct (std.at_ (Stopwatch.measurements sw) (to_size_t (index + 1)))
    as [end_ | e | ] eqn:Hat; simpl.
  - split; [| discriminate].
    destruct (Bool.eqb (Stopwatch.sw_mode sw) Stopwatch.SPLIT_MODE).
    + unfold std.index.
      destruct (to_size_t index <? std.v_size (Stopwatch.measurements sw));
        [destruct (std.v_elems (Stopwatch.measurements sw) !! _) |];
        simpl; discriminate.
    + unfold std.front.
      destruct (std.v_elems (Stopwatch.measurements sw)); simpl; discriminate.
  - tauto.
  - split; discriminate.
Qed.

(** C2.  The claim fails for the index [-1] (and for any index that
    [index + 1] wraps to a valid position): on a stopwatch in elapse
    mode that recorded one snapshot, so with no duration at all,
    [operator[]] returns 0 instead of throwing, and in split mode it reads
    the vector at [size_t(-1)] without a check.  The checked [data(-1)]
    does throw. *)
Theorem operator_index_misses_negative (num den : Z) :
  exists w sw,
    run world_init [Construct 0 Stopwatch.ELAPSE_MODE; Record_ 0 5] = Some w /\
    w_objs w !! 0%nat = Some sw /\
    Stopwatch.size sw = 0 /\
    Stopwatch.operator_index num den sw (-1) = Ok 0 /\
    Stopwatch.operator_index num den
      (Stopwatch.set_mode Stopwatch.SPLIT_MODE sw) (-1) = Undefined /\
    Stopwatch.data_at sw (-1) = Throw out_of_range.
Proof.
  eexists. eexists. split; [reflexivity |]. split; [reflexivity |].
  split; [reflexivity |]. split.
  - unfold Stopwatch.operator_index, std.duration_cast. simpl.
    change (to_size_t (-1 + 1)) with 0. simpl.
    unfold std.at_, std.front. simpl. reflexivity.
  - split; vm_compute; reflexivity.
Qed.

(** ** Iterators *)

Lemma run_records (x : nat) (nows : list Z) (w : world) (sw : Stopwatch.t) :
  world_ok w -> w_objs w !! x = Some sw ->
  exists w' sw',
    run w (map (Record_ x) nows) = Some w' /\ world_ok w' /\
    w_objs w' !! x = Some sw' /\
    Stopwatch.data sw' = Stopwatch.data sw ++ nows /\
    Stopwatch.mode sw' = Stopwatch.mode sw /\
    forall y, y <> x -> w_objs w' !! y = w_objs w !! y.
Proof.
  revert w sw. induction nows as [| now nows IH]; intros w sw Hw Hx; simpl.
  - exists w, sw. rewrite app_nil_r. splits; auto.
  - rewrite Hx. simpl.
    set (w1 := store x (Stopwatch.record now sw) w).
    assert (step w (Record_ x now) = Some w1) as Hstep
      by (simpl; rewrite Hx; reflexivity).
    pose proof (step_ok _ _ _ Hw Hstep) as Hw1.
    pose proof (store_lookup_eq x (Stopwatch.record now sw) w) as Hx1.
    destruct (record_result now sw (w_heap w)) as [Hd Hm].
    destruct (IH w1 _ Hw1 Hx1) as (w' & sw' & Hrun & Hw' & Hx' & Hd' & Hm' & Hfr).
    exists w', sw'. rewrite Hd', Hd, Hm', Hm, <- app_assoc.
    splits; auto.
    intros y Hy. rewrite (Hfr y Hy). apply store_lookup_ne. auto.
Qed.

Lemma run_recorded (x : nat) (t0 : Z) (nows : list Z) (md : bool) (w : world) :
  world_ok w ->
  exists w' sw,
    run w (recorded x t0 nows md) = Some w' /\ world_ok w' /\
    w_objs w' !! x = Some sw /\
    Stopwatch.data sw = t0 :: nows /\
    Stopwatch.mode sw = md /\
    forall y, y <> x -> w_objs w' !! y = w_objs w !! y.
Proof.
  intros Hw. unfold recorded.
  set (c := ConstructReserve x (Z.of_nat (length nows)) md).
  set (m := Stopwatch.ctor_reserve (Z.of_nat (length nows)) md).
  set (w1 := store x m w).
  assert (step w c = Some w1) as Hstep by reflexivity.
  pose proof (step_ok _ _ _ Hw Hstep) as Hw1.
  pose proof (store_lookup_eq x m w) as Hx1.
  destruct Hw as (Hh & Hw).
  destruct (sw_moves_ctor_reserve (Z.of_nat (length nows)) md (w_heap w) Hh
              (block_ok_default _)) as (Hd & Hm & _).
  fold m in Hd, Hm.
  destruct (run_records x (t0 :: nows) w1 _ Hw1 Hx1)
    as (w' & sw' & Hrun & Hw' & Hx' & Hd' & Hm' & Hfr).
  exists w', sw'.
  change (run w (c :: Record_ x t0 :: map (Record_ x) nows))
    with (w2 ← step w c; run w2 (map (Record_ x) (t0 :: nows))).
  rewrite Hstep. simpl. simpl in Hrun. rewrite Hrun.
  rewrite Hd', Hd, Hm'. unfold Stopwatch.mode. rewrite Hm.
  splits; auto.
  intros y Hy. rewrite (Hfr y Hy). apply store_lookup_ne. auto.
Qed.

Lemma operator_sub_throws (a b : Stopwatch.iterator.t) :
  Stopwatch.iterator.operator_sub a b = Throw runtime_error <->
  Stopwatch.iterator.base a <> Stopwatch.iterator.base b.
Proof.
  unfold Stopwatch.iterator.operator_sub.
  destruct (Z.eqb_spec (Stopwatch.iterator.base a) (Stopwatch.iterator.base b));
    simpl; split; auto; try discriminate. contradiction.
Qed.





(** C4.  For iterators with one base, [==], [<], [<=] and [>] compare the
    positions, but [>=] compares the position of the left iterator with
    the base of the right one: between [begin()] and [end()] of a
    stopwatch that holds three snapshots, [begin() >= end()] is true
    although [begin()] is two positions before [end()]. *)
Theorem operator_ge_uses_base :
  (forall a b : Stopwatch.iterator.t,
     Stopwatch.iterator.base a = Stopwatch.iterator.base b ->
     (Stopwatch.iterator.operator_eq a b = true <->
      Stopwatch.iterator.ptr a = Stopwatch.iterator.ptr b) /\
     (Stopwatch.iterator.operator_lt a b = true <->
      Stopwatch.iterator.ptr a < Stopwatch.iterator.ptr b) /\
     (Stopwatch.iterator.operator_le a b = true <->
      Stopwatch.iterator.ptr a <= Stopwatch.iterator.ptr b) /\
     (Stopwatch.iterator.operator_gt a b = true <->
      Stopwatch.iterator.ptr a > Stopwatch.iterator.ptr b) /\
     (Stopwatch.iterator.operator_ge a b = true <->
      Stopwatch.iterator.ptr a >= Stopwatch.iterator.base b)) /\
  (exists w sw,
     run world_init (recorded 0 0 [10; 25] Stopwatch.SPLIT_MODE) = Some w /\
     w_objs w !! 0%nat = Some sw /\
     Stopwatch.iterator.base (Stopwatch.begin sw) =
       Stopwatch.iterator.base (Stopwatch.end_ sw) /\
     Stopwatch.iterator.ptr (Stopwatch.begin sw) + 2 =
       Stopwatch.iterator.ptr (Stopwatch.end_ sw) /\
     Stopwatch.iterator.operator_ge (Stopwatch.begin sw) (Stopwatch.end_ sw) = true).
Proof.
  split.
  - intros a b Hb.
    unfold Stopwatch.iterator.operator_eq, Stopwatch.iterator.operator_lt,
      Stopwatch.iterator.operator_le, Stopwatch.iterator.operator_gt,
      Stopwatch.iterator.operator_ge.
    rewrite Hb, Z.eqb_refl, !andb_true_r.
    rewrite Z.eqb_eq, Z.gtb_gt, Z.geb_ge, Z.gtb_gt, Z.geb_ge.
    repeat split; lia.
  - eexists. eexists. split; [reflexivity |]. split; [reflexivity |].
    vm_compute. auto.
Qed.

Lemma operator_ge_uses_base_witness :
  Stopwatch.iterator.operator_lt
    (Stopwatch.iterator.Make 1 1 true) (Stopwatch.iterator.Make 1 3 true) = true.
Proof.
  destruct operator_ge_uses_base as [Hcmp _].
  apply (Hcmp (Stopwatch.iterator.Make 1 1 true) (Stopwatch.iterator.Make 1 3 true));
    simpl; [reflexivity | lia].
Defined.

(** C5.  [begin() == end()] whenever the stopwatch has no duration, and
    with at least one snapshot recorded [end() - begin()] is the number of
    snapshots less one. *)
Theorem begin_end_range (sw : Stopwatch.t) :
  (Stopwatch.size sw = 0 ->
   Stopwatch.iterator.operator_eq (Stopwatch.begin sw) (Stopwatch.end_ sw) = true) /\
  (1 <= Stopwatch.data_size sw ->
   Stopwatch.iterator.operator_sub (Stopwatch.end_ sw) (Stopwatch.begin sw) =
     Ok (Stopwatch.data_size sw - 1)).
Proof.
  unfold Stopwatch.size, Stopwatch.data_size, Stopwatch.begin, Stopwatch.end_,
    Stopwatch.iterator.operator_eq, Stopwatch.iterator.operator_sub, std.v_empty.
  simpl. set (n := std.v_size (Stopwatch.measurements sw)).
  set (p := std.v_data (Stopwatch.measurements sw)).
  pose proof (v_size_nonneg (Stopwatch.measurements sw)) as Hn. fold n in Hn.
  rewrite Z.eqb_refl. simpl. split.
  - intros Hsz. rewrite andb_true_r. apply Z.eqb_eq.
    destruct (Z.ltb_spec 1 n); [lia |].
    destruct (Z.eqb_spec n 0); lia.
  - intros Hone. destruct (Z.eqb_spec n 0); [lia |]. f_equal. lia.
Qed.

Lemma begin_end_range_witness :
  Stopwatch.iterator.operator_eq
    (Stopwatch.begin (Stopwatch.Make (std.Vector 1 2 [5]) true))
    (Stopwatch.end_ (Stopwatch.Make (std.Vector 1 2 [5]) true)) = true /\
  Stopwatch.iterator.operator_sub
    (Stopwatch.end_ (Stopwatch.Make (std.Vector 1 3 [0; 10; 25]) true))
    (Stopwatch.begin (Stopwatch.Make (std.Vector 1 3 [0; 10; 25]) true)) = Ok 2.
Proof.
  split.
  - apply (begin_end_range (Stopwatch.Make (std.Vector 1 2 [5]) true)).
    reflexivity.
  - apply (begin_end_range (Stopwatch.Make (std.Vector 1 3 [0; 10; 25]) true)).
    vm_compute. discriminate.
Defined.

(** C9.  In every state a program of constructions, records, clears, mode
    changes and interleavings reaches, [size()] of each stopwatch is the
    snapshot count less one, or 0 when nothing is recorded, and [empty()]
    holds exactly when fewer than two snapshots are recorded, which is
    when [size()] is 0. *)
Theorem size_empty_invariant (os : list op) (w : world) (x : nat)
    (sw : Stopwatch.t) :
  run world_init os = Some w ->
  w_objs w !! x = Some sw ->
  Stopwatch.size sw = Z.max (Stopwatch.data_size sw - 1) 0 /\
  (Stopwatch.empty sw = true <-> Stopwatch.data_size sw < 2) /\
  (Stopwatch.empty sw = true <-> Stopwatch.size sw = 0).
Proof.
  intros _ _.
  split; [apply size_is_max |].
  split; [apply empty_iff_few | apply empty_iff_size_0].
Qed.

Lemma size_empty_invariant_witness :
  Stopwatch.size (Stopwatch.Make (std.Vector 8 4 [0; 10; 25]) true) =
    Z.max (Stopwatch.data_size (Stopwatch.Make (std.Vector 8 4 [0; 10; 25]) true) - 1) 0.
Proof.
  apply (size_empty_invariant
           [Construct 0 true; Record_ 0 10; Record_ 0 25; Clear 0;
            Construct 1 false; Record_ 1 0; SetMode 1 true; PlusAssign 0 1;
            Record_ 0 10; Record_ 0 25]
           (World 12 (<[0%nat := Stopwatch.Make (std.Vector 8 4 [0; 10; 25]) true]>
                       (<[1%nat := Stopwatch.Make (std.Vector 3 2 [0]) true]> ∅)))
           0%nat).
  - vm_compute. reflexivity.
  - reflexivity.
Defined.

(** C10.  When the bases of two iterators differ, [==], [<], [<=] and [>]
    (and [>=] as well) are false and [!=] is true, whatever the positions;
    the operators are total functions into [bool], so none of them
    throws. *)
Theorem compare_mismatched_base (a b : Stopwatch.iterator.t) :
  Stopwatch.iterator.base a <> Stopwatch.iterator.base b ->
  Stopwatch.iterator.operator_eq a b = false /\
  Stopwatch.iterator.operator_lt a b = false /\
  Stopwatch.iterator.operator_le a b = false /\
  Stopwatch.iterator.operator_gt a b = false /\
  Stopwatch.iterator.operator_ge a b = false /\
  Stopwatch.iterator.operator_ne a b = true.
Proof.
  intros Hb. apply Z.eqb_neq in Hb.
  unfold Stopwatch.iterator.operator_eq, Stopwatch.iterator.operator_lt,
    Stopwatch.iterator.operator_le, Stopwatch.iterator.operator_gt,
    Stopwatch.iterator.operator_ge, Stopwatch.iterator.operator_ne.
  rewrite Hb, !andb_false_r. simpl. rewrite orb_true_r. auto 10.
Qed.

Lemma compare_mismatched_base_witness :
  Stopwatch.iterator.operator_eq
    (Stopwatch.iterator.Make 1 4 true) (Stopwatch.iterator.Make 4 4 true) = false /\
  Stopwatch.iterator.operator_lt
    (Stopwatch.iterator.Make 1 4 true) (Stopwatch.iterator.Make 4 4 true) = false /\
  Stopwatch.iterator.operator_le
    (Stopwatch.iterator.Make 1 4 true) (Stopwatch.iterator.Make 4 4 true) = false /\
  Stopwatch.iterator.operator_gt
    (Stopwatch.iterator.Make 1 4 true) (Stopwatch.iterator.Make 4 4 true) = false /\
  Stopwatch.iterator.operator_ge
    (Stopwatch.iterator.Make 1 4 true) (Stopwatch.iterator.Make 4 4 true) = false /\
  Stopwatch.iterator.operator_ne
    (Stopwatch.iterator.Make 1 4 true) (Stopwatch.iterator.Make 4 4 true) = true.
Proof.
  apply (compare_mismatched_base
           (Stopwatch.iterator.Make 1 4 true) (Stopwatch.iterator.Make 4 4 true)).
  simpl. lia.
Defined.

(** ** Interleaving *)

(** C6, as stated, fails: a sorted stopwatch that recorded twice within one
    clock tick keeps both snapshots of identical value through the
    interleaving, so that the result is not the union with identical time
    points collapsed to one. *)
Lemma interleaving_keeps_repeated_time_point :
  exists w A B R,
    run world_init [Construct 0 true; Record_ 0 5; Record_ 0 5; Construct 1 true]
      = Some w /\
    w_objs w !! 0%nat = Some A /\ w_objs w !! 1%nat = Some B /\
    std.is_sorted (Stopwatch.data A) = true /\
    std.is_sorted (Stopwatch.data B) = true /\
    run w [PlusAssign 0 1] = Some R /\
    (Stopwatch.data <$> w_objs R !! 0%nat) = Some [5; 5] /\
    ~ collapsed_union (Stopwatch.data A) (Stopwatch.data B) [5; 5].
Proof.
  do 4 eexists.
  split; [reflexivity |]. split; [reflexivity |]. split; [reflexivity |].
  split; [reflexivity |]. split; [reflexivity |]. split; [reflexivity |].
  split; [reflexivity |].
  intros [Hstrict _]. discriminate Hstrict.
Qed.

(** C6, amended.  For sorted snapshot sequences, [operator+=] and
    [operator+] leave the same sequence, which is sorted and holds each
    time point as often as the operand that holds it more often; so it
    has at most as many snapshots as the two operands together and holds
    exactly their time points; and when no operand holds a time point
    twice it is the union with identical time points collapsed to one. *)
Theorem interleaving_union (A B : Stopwatch.t) (h : heap) :
  std.is_sorted (Stopwatch.data A) = true ->
  std.is_sorted (Stopwatch.data B) = true ->
  let R := (Stopwatch.operator_plus_assign A B h).1 in
  Stopwatch.data (Stopwatch.operator_plus A B h).1 = Stopwatch.data R /\
  std.is_sorted (Stopwatch.data R) = true /\
  (forall z, occurrences (Stopwatch.data R) z =
             Nat.max (occurrences (Stopwatch.data A) z)
                     (occurrences (Stopwatch.data B) z)) /\
  Stopwatch.data_size R <= Stopwatch.data_size A + Stopwatch.data_size B /\
  (forall z, In z (Stopwatch.data R) <->
             In z (Stopwatch.data A) \/ In z (Stopwatch.data B)) /\
  (strictly_increasing (Stopwatch.data A) = true ->
   strictly_increasing (Stopwatch.data B) = true ->
   collapsed_union (Stopwatch.data A) (Stopwatch.data B) (Stopwatch.data R)).
Proof.
  intros HA HB R. subst R.
  destruct (plus_assign_result A B h) as [Hd _].
  destruct (plus_result A B h) as [Hd' _].
  assert (Stopwatch.data_size (Stopwatch.operator_plus_assign A B h).1 =
          Z.of_nat (length (std.set_union (Stopwatch.data A) (Stopwatch.data B))))
    as Hsz by (rewrite <- Hd; reflexivity).
  rewrite Hsz, Hd', Hd.
  splits.
  - reflexivity.
  - apply set_union_sorted; auto.
  - intros z. apply set_union_occurrences; auto.
  - pose proof (set_union_length (Stopwatch.data A) (Stopwatch.data B)).
    unfold Stopwatch.data_size, std.v_size. unfold Stopwatch.data in *. lia.
  - intros z. apply set_union_In.
  - intros HsA HsB. split.
    + apply set_union_strictly_increasing; auto.
    + intros z. apply set_union_In.
Qed.

Lemma interleaving_union_witness :
  Stopwatch.data
    (Stopwatch.operator_plus (Stopwatch.Make (std.Vector 1 4 [0; 10; 25; 25]) true)
                             (Stopwatch.Make (std.Vector 5 3 [3; 10; 30]) false) 8).1 =
  Stopwatch.data
    (Stopwatch.operator_plus_assign
       (Stopwatch.Make (std.Vector 1 4 [0; 10; 25; 25]) true)
       (Stopwatch.Make (std.Vector 5 3 [3; 10; 30]) false) 8).1.
Proof.
  apply (interleaving_union (Stopwatch.Make (std.Vector 1 4 [0; 10; 25; 25]) true)
                            (Stopwatch.Make (std.Vector 5 3 [3; 10; 30]) false) 8);
    reflexivity.
Defined.

(** C7.  When the snapshot sequences of [a] and [b] are sorted, after
    [a += b; b += a] the two stopwatches hold the same snapshot sequence,
    the one of [a + b] computed on the stopwatches as they were. *)
Theorem mutual_interleaving (w : world) (a b : nat) (A B : Stopwatch.t) :
  w_objs w !! a = Some A -> w_objs w !! b = Some B ->
  std.is_sorted (Stopwatch.data A) = true ->
  std.is_sorted (Stopwatch.data B) = true ->
  exists w' A' B',
    run w [PlusAssign a b; PlusAssign b a] = Some w' /\
    w_objs w' !! a = Some A' /\ w_objs w' !! b = Some B' /\
    Stopwatch.data A' = Stopwatch.data B' /\
    forall h, Stopwatch.data B' = Stopwatch.data (Stopwatch.operator_plus A B h).1.
Proof.
  intros HA HB HsA HsB.
  set (w1 := store a (Stopwatch.operator_plus_assign A B) w).
  set (A1 := (Stopwatch.operator_plus_assign A B (w_heap w)).1).
  assert (step w (PlusAssign a b) = Some w1) as Hstep1
    by (simpl; rewrite HA, HB; reflexivity).
  assert (w_objs w1 !! a = Some A1) as HA1 by apply store_lookup_eq.
  destruct (plus_assign_result A B (w_heap w)) as [HdA1 _]. fold A1 in HdA1.
  assert (exists B0, w_objs w1 !! b = Some B0 /\
                     Stopwatch.data B0 = Stopwatch.data (if decide (a = b) then A1 else B))
    as (B0 & HB0 & HdB0).
  { destruct (decide (a = b)) as [<- | Hne].
    - exists A1. auto.
    - exists B. split; [| reflexivity].
      unfold w1. rewrite store_lookup_ne by auto. exact HB. }
  set (w2 := store b (Stopwatch.operator_plus_assign B0 A1) w1).
  set (B2 := (Stopwatch.operator_plus_assign B0 A1 (w_heap w1)).1).
  assert (step w1 (PlusAssign b a) = Some w2) as Hstep2
    by (simpl; rewrite HB0, HA1; reflexivity).
  assert (w_objs w2 !! b = Some B2) as HB2 by apply store_lookup_eq.
  destruct (plus_assign_result B0 A1 (w_heap w1)) as [HdB2 _]. fold B2 in HdB2.
  assert (Stopwatch.data B2 =
          std.set_union (Stopwatch.data A) (Stopwatch.data B)) as Hconv.
  { rewrite HdB2, HdB0, HdA1. destruct (decide (a = b)) as [<- | Hne].
    - assert (B = A) as -> by congruence.
      rewrite HdA1. rewrite (set_union_self (Stopwatch.data A)) by auto.
      apply set_union_self; auto.
    - apply set_union_absorb; auto. }
  assert (exists A2, w_objs w2 !! a = Some A2 /\
                     Stopwatch.data A2 = Stopwatch.data B2) as (A2 & HA2 & HdA2).
  { destruct (decide (a = b)) as [<- | Hne].
    - exists B2. auto.
    - exists A1. split.
      + unfold w2. rewrite store_lookup_ne by auto. exact HA1.
      + rewrite Hconv. exact HdA1. }
  exists w2, A2, B2.
  splits; auto.
  - simpl. simpl in Hstep1, Hstep2. rewrite Hstep1. simpl. rewrite Hstep2.
    reflexivity.
  - intros h. destruct (plus_result A B h) as [Hd _]. rewrite Hd. exact Hconv.
Qed.

Lemma mutual_interleaving_witness :
  exists w' A' B',
    run (World 9 (<[1%nat := Stopwatch.Make (std.Vector 5 4 [3; 10; 30]) false]>
                   (<[0%nat := Stopwatch.Make (std.Vector 1 4 [0; 10; 25]) true]> ∅)))
        [PlusAssign 0 1; PlusAssign 1 0] = Some w' /\
    w_objs w' !! 0%nat = Some A' /\ w_objs w' !! 1%nat = Some B' /\
    Stopwatch.data A' = Stopwatch.data B' /\
    forall h, Stopwatch.data B' =
              Stopwatch.data
                (Stopwatch.operator_plus
                   (Stopwatch.Make (std.Vector 1 4 [0; 10; 25]) true)
                   (Stopwatch.Make (std.Vector 5 4 [3; 10; 30]) false) h).1.
Proof.
  apply (mutual_interleaving
           (World 9 (<[1%nat := Stopwatch.Make (std.Vector 5 4 [3; 10; 30]) false]>
                      (<[0%nat := Stopwatch.Make (std.Vector 1 4 [0; 10; 25]) true]> ∅)))
           0%nat 1%nat); reflexivity.
Defined.

(** C8.  The stopwatch that [operator+] returns has the mode of the left
    operand, and declaring it leaves every other stopwatch, both operands
    among them, as it was; [operator+=] keeps the mode of the receiver and
    leaves every other stopwatch, the argument among them, as it was. *)
Theorem interleaving_frame (w w' : world) (a b : nat) (A B : Stopwatch.t) :
  w_objs w !! a = Some A -> w_objs w !! b = Some B ->
  (forall h, Stopwatch.mode (Stopwatch.operator_plus A B h).1 = Stopwatch.mode A) /\
  (forall z, z <> a -> z <> b -> step w (Plus z a b) = Some w' ->
     w_objs w' !! a = Some A /\ w_objs w' !! b = Some B /\
     (forall y, y <> z -> w_objs w' !! y = w_objs w !! y) /\
     exists C, w_objs w' !! z = Some C /\ Stopwatch.mode C = Stopwatch.mode A) /\
  (a <> b -> step w (PlusAssign a b) = Some w' ->
     w_objs w' !! b = Some B /\
     (forall y, y <> a -> w_objs w' !! y = w_objs w !! y) /\
     exists A', w_objs w' !! a = Some A' /\ Stopwatch.mode A' = Stopwatch.mode A).
Proof.
  intros HA HB. splits.
  - intros h. apply plus_result.
  - intros z Hza Hzb Hstep.
    pose proof (step_frame _ _ _ a Hstep ltac:(simpl; auto)) as Ha.
    pose proof (step_frame _ _ _ b Hstep ltac:(simpl; auto)) as Hb.
    rewrite Ha, Hb. splits; auto.
    + intros y Hy. apply (step_frame _ _ _ y Hstep). simpl. auto.
    + simpl in Hstep. rewrite HA, HB in Hstep. simpl in Hstep.
      inversion Hstep; subst. eexists. split; [apply store_lookup_eq |].
      apply plus_result.
  - intros Hab Hstep.
    pose proof (step_frame _ _ _ b Hstep ltac:(simpl; auto)) as Hb.
    rewrite Hb. splits; auto.
    + intros y Hy. apply (step_frame _ _ _ y Hstep). simpl. auto.
    + simpl in Hstep. rewrite HA, HB in Hstep. simpl in Hstep.
      inversion Hstep; subst. eexists. split; [apply store_lookup_eq |].
      apply plus_assign_result.
Qed.

Lemma interleaving_frame_witness :
  Stopwatch.mode
    (Stopwatch.operator_plus (Stopwatch.Make (std.Vector 1 4 [0; 10; 25]) true)
                             (Stopwatch.Make (std.Vector 5 4 [3; 10; 30]) false) 9).1 =
    Stopwatch.mode (Stopwatch.Make (std.Vector 1 4 [0; 10; 25]) true) /\
  w_objs (World 15 (<[0%nat := Stopwatch.Make (std.Vector 9 6 [0; 3; 10; 25; 30]) true]>
                     (<[1%nat := Stopwatch.Make (std.Vector 5 4 [3; 10; 30]) false]> ∅)))
    !! 1%nat = Some (Stopwatch.Make (std.Vector 5 4 [3; 10; 30]) false).
Proof.
  destruct (interleaving_frame
              (World 9 (<[1%nat := Stopwatch.Make (std.Vector 5 4 [3; 10; 30]) false]>
                         (<[0%nat := Stopwatch.Make (std.Vector 1 4 [0; 10; 25]) true]> ∅)))
              (World 15 (<[0%nat := Stopwatch.Make (std.Vector 9 6 [0; 3; 10; 25; 30]) true]>
                          (<[1%nat := Stopwatch.Make (std.Vector 5 4 [3; 10; 30]) false]> ∅)))
              0%nat 1%nat
              (Stopwatch.Make (std.Vector 1 4 [0; 10; 25]) true)
              (Stopwatch.Make (std.Vector 5 4 [3; 10; 30]) false))
    as (Hmode & _ & Hassign).
  - reflexivity.
  - reflexivity.
  - split; [apply Hmode |].
    destruct Hassign as (Hb & _); [discriminate | vm_compute; reflexivity |].
    exact Hb.
Defined.


(** * Further properties of the header and of the unit tests *)

(** ** Moving and comparing iterators *)

Lemma iterator_eta (it : Stopwatch.iterator.t) :
  Stopwatch.iterator.Make (Stopwatch.iterator.base it) (Stopwatch.iterator.ptr it)
    (Stopwatch.iterator.iter_mode it) = it.
Proof. destruct it. reflexivity. Qed.

Lemma iterator_eq_intro (a b : Stopwatch.iterator.t) :
  Stopwatch.iterator.base a = Stopwatch.iterator.base b ->
  Stopwatch.iterator.ptr a = Stopwatch.iterator.ptr b ->
  Stopwatch.iterator.iter_mode a = Stopwatch.iterator.iter_mode b ->
  a = b.
Proof. destruct a, b. simpl. intros -> -> ->. reflexivity. Qed.

(** X1.  Moving an iterator forth and back returns the iterator: [+] and
    [-] by a distance undo each other, as do [++] and [--]; [++] is [+ 1];
    and the difference between a moved iterator and the original is the
    distance moved, with the opposite sign the other way round. *)
Theorem iterator_move_back (it : Stopwatch.iterator.t) (n : Z) :
  Stopwatch.iterator.operator_minus (Stopwatch.iterator.operator_plus it n) n = it /\
  Stopwatch.iterator.operator_plus (Stopwatch.iterator.operator_minus it n) n = it /\
  Stopwatch.iterator.operator_decr (Stopwatch.iterator.operator_incr it) = it /\
  Stopwatch.iterator.operator_incr (Stopwatch.iterator.operator_decr it) = it /\
  Stopwatch.iterator.operator_incr it = Stopwatch.iterator.operator_plus it 1 /\
  (Stopwatch.iterator.operator_post_incr it).1 = it /\
  Stopwatch.iterator.operator_sub (Stopwatch.iterator.operator_plus it n) it = Ok n /\
  Stopwatch.iterator.operator_sub it (Stopwatch.iterator.operator_plus it n) = Ok (- n).
Proof.
  splits; try (apply iterator_eq_intro; simpl; solve [reflexivity | lia]);
    try reflexivity.
  - unfold Stopwatch.iterator.operator_sub. simpl. rewrite Z.eqb_refl. simpl.
    f_equal. lia.
  - unfold Stopwatch.iterator.operator_sub. simpl. rewrite Z.eqb_refl. simpl.
    f_equal. lia.
Qed.

(** X2.  Differences of iterators compose: when [a - b] and [b - c] are
    defined, so are [b - a], which is the opposite of [a - b], and
    [a - c], which is the sum of the two. *)
Theorem iterator_distance_adds (a b c : Stopwatch.iterator.t) (d1 d2 : Z) :
  Stopwatch.iterator.operator_sub a b = Ok d1 ->
  Stopwatch.iterator.operator_sub b c = Ok d2 ->
  Stopwatch.iterator.operator_sub b a = Ok (- d1) /\
  Stopwatch.iterator.operator_sub a c = Ok (d1 + d2).
Proof.
  unfold Stopwatch.iterator.operator_sub.
  destruct (Z.eqb_spec (Stopwatch.iterator.base a) (Stopwatch.iterator.base b))
    as [Hab | Hab]; simpl; [| discriminate].
  destruct (Z.eqb_spec (Stopwatch.iterator.base b) (Stopwatch.iterator.base c))
    as [Hbc | Hbc]; simpl; [| discriminate].
  intros H1 H2. inversion H1. inversion H2.
  assert ((Stopwatch.iterator.base b =? Stopwatch.iterator.base a) = true) as ->
    by (apply Z.eqb_eq; congruence).
  assert ((Stopwatch.iterator.base a =? Stopwatch.iterator.base c) = true) as ->
    by (apply Z.eqb_eq; congruence).
  simpl. split; f_equal; lia.
Qed.

Lemma iterator_distance_adds_witness :
  Stopwatch.iterator.operator_sub
    (Stopwatch.iterator.Make 1 2 true) (Stopwatch.iterator.Make 1 6 false) = Ok (- 4) /\
  Stopwatch.iterator.operator_sub
    (Stopwatch.iterator.Make 1 6 false) (Stopwatch.iterator.Make 1 3 true) = Ok (4 + -1).
Proof.
  apply (iterator_distance_adds
           (Stopwatch.iterator.Make 1 6 false) (Stopwatch.iterator.Make 1 2 true)
           (Stopwatch.iterator.Make 1 3 true) 4 (-1)); reflexivity.
Defined.

(** X3.  The comparison operators agree with each other: [!=] is the
    negation of [==], [a < b] is [b > a], [a <= b] is [a < b] or
    [a == b], and of two iterators with one base exactly one of
    [a < b], [a == b], [a > b] holds. *)
Theorem iterator_comparisons_agree (a b : Stopwatch.iterator.t) :
  Stopwatch.iterator.operator_ne a b = negb (Stopwatch.iterator.operator_eq a b) /\
  Stopwatch.iterator.operator_lt a b = Stopwatch.iterator.operator_gt b a /\
  Stopwatch.iterator.operator_le a b =
    Stopwatch.iterator.operator_lt a b || Stopwatch.iterator.operator_eq a b /\
  (Stopwatch.iterator.base a = Stopwatch.iterator.base b ->
   (Stopwatch.iterator.operator_lt a b = true /\
    Stopwatch.iterator.operator_eq a b = false /\
    Stopwatch.iterator.operator_gt a b = false) \/
   (Stopwatch.iterator.operator_lt a b = false /\
    Stopwatch.iterator.operator_eq a b = true /\
    Stopwatch.iterator.operator_gt a b = false) \/
   (Stopwatch.iterator.operator_lt a b = false /\
    Stopwatch.iterator.operator_eq a b = false /\
    Stopwatch.iterator.operator_gt a b = true)).
Proof.
  unfold Stopwatch.iterator.operator_ne, Stopwatch.iterator.operator_eq,
    Stopwatch.iterator.operator_lt, Stopwatch.iterator.operator_gt,
    Stopwatch.iterator.operator_le.
  set (pa := Stopwatch.iterator.ptr a). set (pb := Stopwatch.iterator.ptr b).
  set (ba := Stopwatch.iterator.base a). set (bb := Stopwatch.iterator.base b).
  splits.
  - rewrite negb_andb. reflexivity.
  - rewrite (Z.eqb_sym bb ba). reflexivity.
  - destruct (Z.eqb_spec ba bb); rewrite ?andb_true_r, ?andb_false_r; [| reflexivity].
    destruct (Z.geb_spec (pb - pa) 0), (Z.gtb_spec (pb - pa) 0),
      (Z.eqb_spec pa pb); simpl; try reflexivity; lia.
  - intros ->. rewrite Z.eqb_refl, !andb_true_r.
    destruct (Z.gtb_spec (pb - pa) 0), (Z.gtb_spec (pa - pb) 0),
      (Z.eqb_spec pa pb); try lia; auto 10.
Qed.

Lemma iterator_comparisons_agree_witness :
  (Stopwatch.iterator.operator_lt
     (Stopwatch.iterator.Make 1 2 true) (Stopwatch.iterator.Make 1 6 false) = true /\
   Stopwatch.iterator.operator_eq
     (Stopwatch.iterator.Make 1 2 true) (Stopwatch.iterator.Make 1 6 false) = false /\
   Stopwatch.iterator.operator_gt
     (Stopwatch.iterator.Make 1 2 true) (Stopwatch.iterator.Make 1 6 false) = false) \/
  (Stopwatch.iterator.operator_lt
     (Stopwatch.iterator.Make 1 2 true) (Stopwatch.iterator.Make 1 6 false) = false /\
   Stopwatch.iterator.operator_eq
     (Stopwatch.iterator.Make 1 2 true) (Stopwatch.iterator.Make 1 6 false) = true /\
   Stopwatch.iterator.operator_gt
     (Stopwatch.iterator.Make 1 2 true) (Stopwatch.iterator.Make 1 6 false) = false) \/
  (Stopwatch.iterator.operator_lt
     (Stopwatch.iterator.Make 1 2 true) (Stopwatch.iterator.Make 1 6 false) = false /\
   Stopwatch.iterator.operator_eq
     (Stopwatch.iterator.Make 1 2 true) (Stopwatch.iterator.Make 1 6 false) = false /\
   Stopwatch.iterator.operator_gt
     (Stopwatch.iterator.Make 1 2 true) (Stopwatch.iterator.Make 1 6 false) = true).
Proof.
  apply (iterator_comparisons_agree
           (Stopwatch.iterator.Make 1 2 true) (Stopwatch.iterator.Make 1 6 false)).
  reflexivity.
Defined.

Lemma iter_decr_minus (n : nat) (it : Stopwatch.iterator.t) :
  Nat.iter n Stopwatch.iterator.operator_decr it =
  Stopwatch.iterator.operator_minus it (Z.of_nat n).
Proof.
  induction n as [| n IH].
  - simpl. apply iterator_eq_intro; simpl; solve [reflexivity | lia].
  - rewrite Nat.iter_succ, IH.
    apply iterator_eq_intro; simpl; solve [reflexivity | lia].
Qed.

Lemma begin_plus_size (sw : Stopwatch.t) :
  Stopwatch.iterator.operator_plus (Stopwatch.begin sw) (Stopwatch.size sw) =
  Stopwatch.end_ sw.
Proof.
  pose proof (v_size_nonneg (Stopwatch.measurements sw)) as Hn.
  apply iterator_eq_intro; simpl; try reflexivity.
  unfold Stopwatch.size, std.v_empty.
  destruct (Z.eqb_spec (std.v_size (Stopwatch.measurements sw)) 0);
    destruct (Z.ltb_spec 1 (std.v_size (Stopwatch.measurements sw))); lia.
Qed.

(** X4.  [begin()] and [end()] are [size()] positions apart for every
    stopwatch, an empty one included: [begin() + size()] is [end()],
    [end() - size()] is [begin()], decrementing [end()] [size()] times
    gives [begin()], [end() - begin()] is [size()], [begin() <= end()],
    and [begin() < end()] exactly when the stopwatch is not empty. *)
Theorem begin_end_size_apart (sw : Stopwatch.t) :
  Stopwatch.iterator.operator_plus (Stopwatch.begin sw) (Stopwatch.size sw) =
    Stopwatch.end_ sw /\
  Stopwatch.iterator.operator_minus (Stopwatch.end_ sw) (Stopwatch.size sw) =
    Stopwatch.begin sw /\
  Nat.iter (Z.to_nat (Stopwatch.size sw)) Stopwatch.iterator.operator_decr
    (Stopwatch.end_ sw) = Stopwatch.begin sw /\
  Stopwatch.iterator.operator_sub (Stopwatch.end_ sw) (Stopwatch.begin sw) =
    Ok (Stopwatch.size sw) /\
  Stopwatch.iterator.operator_le (Stopwatch.begin sw) (Stopwatch.end_ sw) = true /\
  Stopwatch.iterator.operator_lt (Stopwatch.begin sw) (Stopwatch.end_ sw) =
    negb (Stopwatch.empty sw).
Proof.
  pose proof (v_size_nonneg (Stopwatch.measurements sw)) as Hn.
  assert (Stopwatch.iterator.ptr (Stopwatch.end_ sw) =
          std.v_data (Stopwatch.measurements sw) + Stopwatch.size sw) as Hend.
  { unfold Stopwatch.end_, Stopwatch.size, std.v_empty. simpl.
    destruct (Z.eqb_spec (std.v_size (Stopwatch.measurements sw)) 0);
      destruct (Z.ltb_spec 1 (std.v_size (Stopwatch.measurements sw))); lia. }
  assert (0 <= Stopwatch.size sw) as Hsz by (rewrite size_is_max; lia).
  assert (Stopwatch.iterator.operator_minus (Stopwatch.end_ sw) (Stopwatch.size sw) =
          Stopwatch.begin sw) as Hminus.
  { apply iterator_eq_intro; simpl; try reflexivity.
    change (Stopwatch.iterator.ptr (Stopwatch.end_ sw) - Stopwatch.size sw =
            std.v_data (Stopwatch.measurements sw)).
    lia. }
  splits.
  - apply begin_plus_size.
  - exact Hminus.
  - rewrite iter_decr_minus, Z2Nat.id by lia. exact Hminus.
  - unfold Stopwatch.iterator.operator_sub.
    change (Stopwatch.iterator.base (Stopwatch.end_ sw))
      with (Stopwatch.iterator.base (Stopwatch.begin sw)).
    rewrite Z.eqb_refl, Hend. cbn [negb].
    change (Stopwatch.iterator.ptr (Stopwatch.begin sw))
      with (std.v_data (Stopwatch.measurements sw)).
    f_equal. lia.
  - unfold Stopwatch.iterator.operator_le.
    change (Stopwatch.iterator.base (Stopwatch.end_ sw))
      with (Stopwatch.iterator.base (Stopwatch.begin sw)).
    rewrite Z.eqb_refl, andb_true_r, Hend.
    change (Stopwatch.iterator.ptr (Stopwatch.begin sw))
      with (std.v_data (Stopwatch.measurements sw)).
    apply Z.geb_le. lia.
  - unfold Stopwatch.iterator.operator_lt.
    change (Stopwatch.iterator.base (Stopwatch.end_ sw))
      with (Stopwatch.iterator.base (Stopwatch.begin sw)).
    rewrite Z.eqb_refl, andb_true_r.
    change (Stopwatch.iterator.ptr (Stopwatch.begin sw))
      with (std.v_data (Stopwatch.measurements sw)).
    rewrite Hend.
    assert (Stopwatch.empty sw = true <-> Stopwatch.size sw = 0) as Hempty
      by apply empty_iff_size_0.
    destruct (Stopwatch.empty sw); simpl.
    + apply not_true_iff_false. rewrite Z.gtb_gt.
      assert (Stopwatch.size sw = 0) by (apply Hempty; reflexivity). lia.
    + apply Z.gtb_gt.
      assert (Stopwatch.size sw <> 0) by (intros H0; apply Hempty in H0; discriminate).
      lia.
Qed.

(** ** Dereferencing iterators *)

Lemma read_inside (v : std.vector) (i : Z) :
  0 <= i < std.v_size v ->
  exists x, std.v_elems v !! Z.to_nat i = Some x /\
            std.read v (std.v_data v + i) = Ok x.
Proof.
  intros Hi. unfold std.read.
  destruct (Z.leb_spec (std.v_data v) (std.v_data v + i)); [| lia].
  destruct (Z.ltb_spec (std.v_data v + i) (std.v_data v + std.v_size v)); [| lia].
  simpl. replace (std.v_data v + i - std.v_data v) with i by lia.
  destruct (lookup_lt_is_Some_2 (std.v_elems v) (Z.to_nat i)) as [x Hx].
  - unfold std.v_size in Hi. lia.
  - exists x. rewrite Hx. auto.
Qed.

Lemma read_outside (v : std.vector) (i : Z) :
  ~ (0 <= i < std.v_size v) -> std.read v (std.v_data v + i) = Undefined.
Proof.
  intros Hi. unfold std.read.
  destruct (Z.leb_spec (std.v_data v) (std.v_data v + i));
    destruct (Z.ltb_spec (std.v_data v + i) (std.v_data v + std.v_size v));
    simpl; try reflexivity. lia.
Qed.

(** The snapshots an index in range works on, and the value of
    [operator[]] in either mode. *)
Lemma operator_index_value (sw : Stopwatch.t) (i : Z) :
  Stopwatch.data_size sw <= SIZE_MAX ->
  0 <= i < Stopwatch.size sw ->
  exists first a b,
    Stopwatch.data sw !! 0%nat = Some first /\
    Stopwatch.data sw !! Z.to_nat i = Some a /\
    Stopwatch.data sw !! Z.to_nat (i + 1) = Some b /\
    forall num den md,
      Stopwatch.operator_index num den (Stopwatch.set_mode md sw) i =
      Ok (std.duration_cast num den (b - (if md then a else first))).
Proof.
  intros Hmax Hi.
  rewrite size_is_max in Hi. unfold Stopwatch.data_size, Stopwatch.data in *.
  set (v := Stopwatch.measurements sw) in *.
  destruct (front_nonempty v ltac:(lia)) as (first & Hf0 & Hfront).
  destruct (at_in_range v (i + 1) ltac:(lia)) as (b & Hb & Hatb).
  destruct (index_in_range v i ltac:(lia)) as (a & Ha & Hidx).
  exists first, a, b. splits; auto.
  intros num den md. unfold Stopwatch.operator_index. simpl. fold v.
  rewrite (to_size_t_small i), (to_size_t_small (i + 1)) by lia.
  rewrite Hatb. simpl. destruct md; simpl.
  - rewrite Hidx. reflexivity.
  - rewrite Hfront. reflexivity.
Qed.

Lemma set_mode_same (sw : Stopwatch.t) :
  Stopwatch.set_mode (Stopwatch.mode sw) sw = sw.
Proof. destruct sw. reflexivity. Qed.

(** The value read through an iterator at distance [i] from the start of
    the block of a stopwatch. *)
Lemma deref_at_index (num den : Z) (sw : Stopwatch.t) (i : Z) (md : bool) :
  Stopwatch.data_size sw <= SIZE_MAX ->
  0 <= i < Stopwatch.size sw ->
  Stopwatch.iterator.operator_deref num den (std.read (Stopwatch.measurements sw))
    (Stopwatch.iterator.Make (std.v_data (Stopwatch.measurements sw))
                             (std.v_data (Stopwatch.measurements sw) + i) md) =
  Stopwatch.operator_index num den (Stopwatch.set_mode md sw) i.
Proof.
  intros Hmax Hi.
  destruct (operator_index_value sw i Hmax Hi) as (first & a & b & H0 & Ha & Hb & Hval).
  rewrite size_is_max in Hi. unfold Stopwatch.data_size, Stopwatch.data in *.
  set (v := Stopwatch.measurements sw) in *.
  destruct (read_inside v 0 ltac:(lia)) as (first' & H0' & Hr0).
  destruct (read_inside v i ltac:(lia)) as (a' & Ha' & Hra).
  destruct (read_inside v (i + 1) ltac:(lia)) as (b' & Hb' & Hrb).
  change (Z.to_nat 0) with 0%nat in H0'.
  assert (first' = first) as -> by congruence.
  assert (a' = a) as -> by congruence.
  assert (b' = b) as -> by congruence.
  rewrite Z.add_0_r in Hr0. rewrite Z.add_assoc in Hrb.
  rewrite Hval. unfold Stopwatch.iterator.operator_deref. simpl.
  rewrite Hrb. simpl. destruct md; simpl; [rewrite Hra | rewrite Hr0]; reflexivity.
Qed.

(** X5.  An iterator reads what the stopwatch computes: for an index [i]
    in [[0, size())], [begin()[i]] and [*(begin() + i)], with the iterator
    set to either mode, are [operator[](i)] of the stopwatch set to that
    mode, and with the mode [begin()] comes with they are
    [operator[](i)] of the stopwatch as it is. *)
Theorem iterator_reads_operator_index (num den : Z) (sw : Stopwatch.t) (i : Z)
    (md : bool) :
  Stopwatch.data_size sw <= SIZE_MAX ->
  0 <= i < Stopwatch.size sw ->
  Stopwatch.iterator.operator_index num den (std.read (Stopwatch.measurements sw))
    (Stopwatch.iterator.set_mode md (Stopwatch.begin sw)) i =
    Stopwatch.operator_index num den (Stopwatch.set_mode md sw) i /\
  Stopwatch.iterator.operator_deref num den (std.read (Stopwatch.measurements sw))
    (Stopwatch.iterator.set_mode md
       (Stopwatch.iterator.operator_plus (Stopwatch.begin sw) i)) =
    Stopwatch.operator_index num den (Stopwatch.set_mode md sw) i /\
  Stopwatch.iterator.operator_index num den (std.read (Stopwatch.measurements sw))
    (Stopwatch.begin sw) i =
    Stopwatch.operator_index num den sw i.
Proof.
  intros Hmax Hi. splits.
  - apply (deref_at_index num den sw i md Hmax Hi).
  - apply (deref_at_index num den sw i md Hmax Hi).
  - pose proof (deref_at_index num den sw i (Stopwatch.mode sw) Hmax Hi) as H.
    rewrite set_mode_same in H. exact H.
Qed.

Lemma iterator_reads_operator_index_witness :
  Stopwatch.iterator.operator_index 1 1000000
    (std.read (std.Vector 1 3 [0; 10000000; 25000000]))
    (Stopwatch.iterator.set_mode false
       (Stopwatch.begin (Stopwatch.Make (std.Vector 1 3 [0; 10000000; 25000000]) true)))
    1 =
  Stopwatch.operator_index 1 1000000
    (Stopwatch.set_mode false
       (Stopwatch.Make (std.Vector 1 3 [0; 10000000; 25000000]) true)) 1.
Proof.
  apply (iterator_reads_operator_index 1 1000000
           (Stopwatch.Make (std.Vector 1 3 [0; 10000000; 25000000]) true) 1 false).
  - vm_compute. discriminate.
  - vm_compute. split; [discriminate | reflexivity].
Defined.

(** X6.  No position from [end()] on can be dereferenced: for every
    stopwatch and every distance [i] of at least [size()], [*(begin() + i)]
    reads past the last snapshot, in either mode, and so does [*end()]. *)
Theorem iterator_end_not_dereferenceable (num den : Z) (sw : Stopwatch.t) (i : Z)
    (md : bool) :
  Stopwatch.size sw <= i ->
  Stopwatch.iterator.operator_deref num den (std.read (Stopwatch.measurements sw))
    (Stopwatch.iterator.set_mode md
       (Stopwatch.iterator.operator_plus (Stopwatch.begin sw) i)) = Undefined /\
  Stopwatch.iterator.operator_deref num den (std.read (Stopwatch.measurements sw))
    (Stopwatch.iterator.set_mode md (Stopwatch.end_ sw)) = Undefined.
Proof.
  intros Hi. rewrite size_is_max in Hi.
  pose proof (v_size_nonneg (Stopwatch.measurements sw)) as Hn.
  unfold Stopwatch.data_size in Hi.
  assert (forall j, Stopwatch.size sw <= j ->
            Stopwatch.iterator.operator_deref num den
              (std.read (Stopwatch.measurements sw))
              (Stopwatch.iterator.set_mode md
                 (Stopwatch.iterator.operator_plus (Stopwatch.begin sw) j)) =
            Undefined) as Hpast.
  { intros j Hj. rewrite size_is_max in Hj. unfold Stopwatch.data_size in Hj.
    unfold Stopwatch.iterator.operator_deref. simpl.
    rewrite <- Z.add_assoc, read_outside by lia. reflexivity. }
  split.
  - apply Hpast. rewrite size_is_max. unfold Stopwatch.data_size. lia.
  - rewrite <- (begin_plus_size sw). apply Hpast. lia.
Qed.

Lemma iterator_end_not_dereferenceable_witness :
  Stopwatch.iterator.operator_deref 1 1
    (std.read (std.Vector 1 3 [0; 10; 25]))
    (Stopwatch.iterator.set_mode false
       (Stopwatch.end_ (Stopwatch.Make (std.Vector 1 3 [0; 10; 25]) true))) =
  Undefined.
Proof.
  apply (iterator_end_not_dereferenceable 1 1
           (Stopwatch.Make (std.Vector 1 3 [0; 10; 25]) true) 2 false).
  vm_compute. discriminate.
Defined.

Lemma range_for_unfold (num den : Z) (mem : Z -> result Z) (fuel : nat)
    (it last : Stopwatch.iterator.t) :
  range_for num den mem fuel it last =
  if Stopwatch.iterator.operator_ne it last
  then match fuel with
       | O => None
       | S fuel' =>
           cons (Stopwatch.iterator.operator_deref num den mem it) <$>
             range_for num den mem fuel'
               (Stopwatch.iterator.operator_post_incr it).2 last
       end
  else Some [].
Proof. destruct fuel; reflexivity. Qed.

Lemma range_for_from (num den : Z) (sw : Stopwatch.t) (m k fuel : nat) :
  Stopwatch.data_size sw <= SIZE_MAX ->
  Z.of_nat k + Z.of_nat m = Stopwatch.size sw ->
  range_for num den (std.read (Stopwatch.measurements sw)) fuel
    (Stopwatch.iterator.operator_plus (Stopwatch.begin sw) (Z.of_nat k))
    (Stopwatch.end_ sw) =
  if (m <=? fuel)%nat
  then Some (map (fun j => Stopwatch.operator_index num den sw (Z.of_nat j)) (seq k m))
  else None.
Proof.
  intros Hmax. revert k fuel. induction m as [| m IH]; intros k fuel Hk.
  - assert (Z.of_nat k = Stopwatch.size sw) as -> by lia.
    rewrite begin_plus_size.
    assert (Stopwatch.iterator.operator_ne (Stopwatch.end_ sw) (Stopwatch.end_ sw)
            = false) as Hne.
    { unfold Stopwatch.iterator.operator_ne. rewrite !Z.eqb_refl. reflexivity. }
    rewrite range_for_unfold, Hne. reflexivity.
  - assert (Stopwatch.iterator.operator_ne
              (Stopwatch.iterator.operator_plus (Stopwatch.begin sw) (Z.of_nat k))
              (Stopwatch.end_ sw) = true) as Hne.
    { rewrite <- (begin_plus_size sw).
      unfold Stopwatch.iterator.operator_ne. simpl.
      destruct (Z.eqb_spec (std.v_data (Stopwatch.measurements sw) + Z.of_nat k)
                  (std.v_data (Stopwatch.measurements sw) + Stopwatch.size sw));
        [lia | reflexivity]. }
    rewrite range_for_unfold, Hne.
    destruct fuel as [| fuel]; [reflexivity |].
    assert ((Stopwatch.iterator.operator_post_incr
               (Stopwatch.iterator.operator_plus (Stopwatch.begin sw) (Z.of_nat k))).2 =
            Stopwatch.iterator.operator_plus (Stopwatch.begin sw) (Z.of_nat (S k)))
      as ->.
    { apply iterator_eq_intro; simpl; try reflexivity. lia. }
    rewrite (IH (S k) fuel) by lia.
    pose proof (deref_at_index num den sw (Z.of_nat k) (Stopwatch.mode sw) Hmax
                  ltac:(lia)) as Hd.
    rewrite set_mode_same in Hd.
    change (Stopwatch.iterator.operator_plus (Stopwatch.begin sw) (Z.of_nat k))
      with (Stopwatch.iterator.Make (std.v_data (Stopwatch.measurements sw))
              (std.v_data (Stopwatch.measurements sw) + Z.of_nat k)
              (Stopwatch.mode sw)).
    rewrite Hd. change (S m <=? S fuel)%nat with (m <=? fuel)%nat.
    destruct (m <=? fuel)%nat; reflexivity.
Qed.

(** X7.  The loop from [begin()] to [end()] visits the durations in the
    order of their indices: it ends after [size()] rounds, with
    [operator[](0)], ..., [operator[](size() - 1)] visited, and not
    before. *)
Theorem range_for_visits_durations (num den : Z) (sw : Stopwatch.t) (fuel : nat) :
  Stopwatch.data_size sw <= SIZE_MAX ->
  ((Z.to_nat (Stopwatch.size sw) <= fuel)%nat ->
   range_for num den (std.read (Stopwatch.measurements sw)) fuel
     (Stopwatch.begin sw) (Stopwatch.end_ sw) =
   Some (map (fun j => Stopwatch.operator_index num den sw (Z.of_nat j))
             (seq 0 (Z.to_nat (Stopwatch.size sw))))) /\
  ((fuel < Z.to_nat (Stopwatch.size sw))%nat ->
   range_for num den (std.read (Stopwatch.measurements sw)) fuel
     (Stopwatch.begin sw) (Stopwatch.end_ sw) = None).
Proof.
  intros Hmax.
  assert (0 <= Stopwatch.size sw) as Hsz.
  { rewrite size_is_max. lia. }
  assert (Stopwatch.iterator.operator_plus (Stopwatch.begin sw) (Z.of_nat 0) =
          Stopwatch.begin sw) as Hb.
  { apply iterator_eq_intro; simpl; try reflexivity. lia. }
  pose proof (range_for_from num den sw (Z.to_nat (Stopwatch.size sw)) 0 fuel Hmax
                ltac:(lia)) as Hrun.
  rewrite Hb in Hrun. split; intros Hfuel; rewrite Hrun.
  - destruct (Nat.leb_spec (Z.to_nat (Stopwatch.size sw)) fuel); [reflexivity | lia].
  - destruct (Nat.leb_spec (Z.to_nat (Stopwatch.size sw)) fuel); [lia | reflexivity].
Qed.

Lemma range_for_visits_durations_witness :
  range_for 1 1 (std.read (std.Vector 1 3 [0; 10; 25])) 5
    (Stopwatch.begin (Stopwatch.Make (std.Vector 1 3 [0; 10; 25]) true))
    (Stopwatch.end_ (Stopwatch.Make (std.Vector 1 3 [0; 10; 25]) true)) =
  Some (map (fun j => Stopwatch.operator_index 1 1
                        (Stopwatch.Make (std.Vector 1 3 [0; 10; 25]) true) (Z.of_nat j))
            (seq 0 (Z.to_nat (Stopwatch.size
                                (Stopwatch.Make (std.Vector 1 3 [0; 10; 25]) true))))).
Proof.
  apply (range_for_visits_durations 1 1
           (Stopwatch.Make (std.Vector 1 3 [0; 10; 25]) true) 5).
  - vm_compute. discriminate.
  - vm_compute. lia.
Defined.

(** ** Recording and clearing *)

Lemma data_at_lookup (sw : Stopwatch.t) (i : Z) :
  Stopwatch.data_size sw <= SIZE_MAX + 1 ->
  0 <= i < Stopwatch.data_size sw ->
  exists x, Stopwatch.data sw !! Z.to_nat i = Some x /\
            Stopwatch.data_at sw i = Ok x.
Proof.
  intros Hmax Hi. unfold Stopwatch.data_at, Stopwatch.data_size, Stopwatch.data in *.
  rewrite to_size_t_small by lia. apply at_in_range. exact Hi.
Qed.

(** X8.  [record()] appends the clock reading: the snapshots recorded
    before stay where they are, the new one is the last, read back by the
    checked [data(index)] at the old snapshot count; the snapshot count
    grows by one, [size()] becomes the old snapshot count, and the mode
    stays. *)
Theorem record_appends (now : Z) (sw : Stopwatch.t) (h : heap) :
  Stopwatch.data_size sw <= SIZE_MAX ->
  Stopwatch.data (Stopwatch.record now sw h).1 = Stopwatch.data sw ++ [now] /\
  Stopwatch.data_size (Stopwatch.record now sw h).1 = Stopwatch.data_size sw + 1 /\
  Stopwatch.size (Stopwatch.record now sw h).1 = Stopwatch.data_size sw /\
  Stopwatch.mode (Stopwatch.record now sw h).1 = Stopwatch.mode sw /\
  Stopwatch.data_at (Stopwatch.record now sw h).1 (Stopwatch.data_size sw) = Ok now /\
  (forall i, 0 <= i < Stopwatch.data_size sw ->
     Stopwatch.data_at (Stopwatch.record now sw h).1 i = Stopwatch.data_at sw i).
Proof.
  intros Hmax. destruct (record_result now sw h) as [Hd Hm].
  set (sw' := (Stopwatch.record now sw h).1) in *.
  pose proof (v_size_nonneg (Stopwatch.measurements sw)) as Hn.
  assert (Stopwatch.data_size sw' = Stopwatch.data_size sw + 1) as Hsz.
  { unfold Stopwatch.data_size, std.v_size. unfold Stopwatch.data in Hd.
    rewrite Hd, length_app. simpl. lia. }
  unfold Stopwatch.data_size in Hn, Hmax |-.
  splits; auto.
  - rewrite size_is_max, Hsz. unfold Stopwatch.data_size. lia.
  - destruct (data_at_lookup sw' (Stopwatch.data_size sw)) as (x & Hx & Hat).
    + rewrite Hsz. unfold Stopwatch.data_size. lia.
    + rewrite Hsz. unfold Stopwatch.data_size. lia.
    + rewrite Hat. f_equal. rewrite Hd in Hx.
      rewrite lookup_app_r in Hx
        by (unfold Stopwatch.data_size, std.v_size, Stopwatch.data; lia).
      replace (Z.to_nat (Stopwatch.data_size sw) - length (Stopwatch.data sw))%nat
        with 0%nat in Hx
        by (unfold Stopwatch.data_size, std.v_size, Stopwatch.data; lia).
      simpl in Hx. congruence.
  - intros i Hi.
    destruct (data_at_lookup sw' i) as (x & Hx & Hat);
      [rewrite Hsz; unfold Stopwatch.data_size in *; lia .. |].
    destruct (data_at_lookup sw i) as (y & Hy & Hat');
      [unfold Stopwatch.data_size in *; lia .. |].
    rewrite Hat, Hat'. f_equal. rewrite Hd in Hx.
    rewrite lookup_app_l in Hx
      by (unfold Stopwatch.data_size, std.v_size, Stopwatch.data in *; lia).
    congruence.
Qed.

Lemma record_appends_witness :
  Stopwatch.data (Stopwatch.record 25 (Stopwatch.Make (std.Vector 1 2 [0; 10]) true) 3).1 =
  Stopwatch.data (Stopwatch.Make (std.Vector 1 2 [0; 10]) true) ++ [25].
Proof.
  apply (record_appends 25 (Stopwatch.Make (std.Vector 1 2 [0; 10]) true) 3).
  vm_compute. discriminate.
Defined.

Lemma empty_data_throws (num den : Z) (sw : Stopwatch.t) (index : Z) :
  Stopwatch.data_size sw = 0 ->
  Stopwatch.operator_index num den sw index = Throw out_of_range /\
  Stopwatch.data_at sw index = Throw out_of_range.
Proof.
  intros Hz. split.
  - apply operator_index_throws. rewrite Hz. apply to_size_t_range.
  - unfold Stopwatch.data_at. apply at_throws.
    unfold Stopwatch.data_size in Hz. rewrite Hz. apply to_size_t_range.
Qed.

(** X9.  [clear()] leaves a stopwatch without snapshots and without
    durations, in the mode and in the block of storage it had: it is
    empty, [begin()] equals [end()] and has the base it had before, every
    index makes [operator[]] and [data(index)] throw, and clearing again
    changes nothing. *)
Theorem clear_resets (num den : Z) (sw : Stopwatch.t) (index : Z) :
  Stopwatch.data (Stopwatch.clear sw) = [] /\
  Stopwatch.data_size (Stopwatch.clear sw) = 0 /\
  Stopwatch.size (Stopwatch.clear sw) = 0 /\
  Stopwatch.empty (Stopwatch.clear sw) = true /\
  Stopwatch.mode (Stopwatch.clear sw) = Stopwatch.mode sw /\
  Stopwatch.begin (Stopwatch.clear sw) = Stopwatch.begin sw /\
  Stopwatch.end_ (Stopwatch.clear sw) = Stopwatch.begin sw /\
  Stopwatch.operator_index num den (Stopwatch.clear sw) index = Throw out_of_range /\
  Stopwatch.data_at (Stopwatch.clear sw) index = Throw out_of_range /\
  Stopwatch.clear (Stopwatch.clear sw) = Stopwatch.clear sw.
Proof.
  splits; try reflexivity.
  - apply (empty_data_throws num den). reflexivity.
  - apply (empty_data_throws num den). reflexivity.
Qed.

(** X10.  Both constructors make an empty stopwatch in the mode asked
    for: no snapshot, no duration, [begin()] equal to [end()], and every
    index makes [operator[]] and [data(index)] throw.  For the reserving
    constructor this holds when [res + 1], as computed in [size_t], is
    within [max_size()] of the vector; above it [reserve] throws
    [std::length_error] and no stopwatch is made. *)
Theorem constructors_make_empty (num den : Z) (res : Z) (mode_in : bool)
    (h : heap) (index : Z) :
  (let sw := (Stopwatch.ctor mode_in h).1 in
   Stopwatch.data sw = [] /\ Stopwatch.size sw = 0 /\
   Stopwatch.empty sw = true /\ Stopwatch.mode sw = mode_in /\
   Stopwatch.iterator.operator_eq (Stopwatch.begin sw) (Stopwatch.end_ sw) = true /\
   Stopwatch.operator_index num den sw index = Throw out_of_range /\
   Stopwatch.data_at sw index = Throw out_of_range) /\
  (to_size_t (res + 1) <= std.max_size ->
   let sw := (Stopwatch.ctor_reserve res mode_in h).1 in
   Stopwatch.data sw = [] /\ Stopwatch.size sw = 0 /\
   Stopwatch.empty sw = true /\ Stopwatch.mode sw = mode_in /\
   Stopwatch.iterator.operator_eq (Stopwatch.begin sw) (Stopwatch.end_ sw) = true /\
   Stopwatch.operator_index num den sw index = Throw out_of_range /\
   Stopwatch.data_at sw index = Throw out_of_range).
Proof.
  assert (forall n,
            let sw := ((let* m := std.reserve n std.vector_default in
                        ret (Stopwatch.Make m mode_in)) h).1 in
            Stopwatch.data sw = [] /\ Stopwatch.size sw = 0 /\
            Stopwatch.empty sw = true /\ Stopwatch.mode sw = mode_in /\
            Stopwatch.iterator.operator_eq (Stopwatch.begin sw) (Stopwatch.end_ sw)
              = true /\
            Stopwatch.operator_index num den sw index = Throw out_of_range /\
            Stopwatch.data_at sw index = Throw out_of_range) as Hboth.
  { intros n. unfold bind, ret.
    pose proof (reserve_elems n std.vector_default h) as He.
    destruct (std.reserve n std.vector_default h) as [m h']. simpl in *.
    assert (Stopwatch.data_size (Stopwatch.Make m mode_in) = 0) as Hz
      by (unfold Stopwatch.data_size, std.v_size; simpl; rewrite He; reflexivity).
    splits.
    - exact He.
    - rewrite size_is_max, Hz. reflexivity.
    - apply empty_iff_few. rewrite Hz. lia.
    - reflexivity.
    - unfold Stopwatch.iterator.operator_eq, Stopwatch.end_, Stopwatch.begin,
        std.v_empty. simpl.
      unfold Stopwatch.data_size in Hz. simpl in Hz. rewrite Hz. simpl.
      rewrite !Z.eqb_refl. reflexivity.
    - apply (empty_data_throws num den). exact Hz.
    - apply (empty_data_throws num den). exact Hz. }
  split; [apply (Hboth 2) | intros _; apply (Hboth (to_size_t (res + 1)))].
Qed.

Lemma constructors_make_empty_witness :
  let sw := (Stopwatch.ctor_reserve 7 Stopwatch.ELAPSE_MODE heap_init).1 in
  Stopwatch.data sw = [] /\ Stopwatch.size sw = 0 /\
  Stopwatch.empty sw = true /\ Stopwatch.mode sw = Stopwatch.ELAPSE_MODE /\
  Stopwatch.iterator.operator_eq (Stopwatch.begin sw) (Stopwatch.end_ sw) = true /\
  Stopwatch.operator_index 1 1000000 sw 0 = Throw out_of_range /\
  Stopwatch.data_at sw 0 = Throw out_of_range.
Proof.
  apply (constructors_make_empty 1 1000000 7 Stopwatch.ELAPSE_MODE heap_init 0).
  vm_compute. discriminate.
Defined.

(** ** Storage and the validity of iterators *)

Lemma records_within_capacity (x : nat) (nows : list Z) (w : world)
    (sw : Stopwatch.t) :
  w_objs w !! x = Some sw ->
  std.v_size (Stopwatch.measurements sw) + Z.of_nat (length nows) <=
    std.v_cap (Stopwatch.measurements sw) ->
  exists w' sw',
    run w (map (Record_ x) nows) = Some w' /\
    w_objs w' !! x = Some sw' /\
    Stopwatch.data sw' = Stopwatch.data sw ++ nows /\
    Stopwatch.mode sw' = Stopwatch.mode sw /\
    std.v_data (Stopwatch.measurements sw') = std.v_data (Stopwatch.measurements sw) /\
    std.v_cap (Stopwatch.measurements sw') = std.v_cap (Stopwatch.measurements sw) /\
    w_heap w' = w_heap w.
Proof.
  revert w sw. induction nows as [| now nows IH]; intros w sw Hx Hcap.
  - exists w, sw. rewrite app_nil_r. splits; auto.
  - simpl in Hcap. simpl. rewrite Hx. simpl.
    set (m := Stopwatch.record now sw).
    assert (m (w_heap w) =
            (Stopwatch.Make
               (std.Vector (std.v_data (Stopwatch.measurements sw))
                           (std.v_cap (Stopwatch.measurements sw))
                           (Stopwatch.data sw ++ [now]))
               (Stopwatch.sw_mode sw), w_heap w)) as Hrec.
    { unfold m, Stopwatch.record, bind, std.emplace_back.
      destruct (Z.ltb_spec (std.v_size (Stopwatch.measurements sw))
                  (std.v_cap (Stopwatch.measurements sw))); [reflexivity | lia]. }
    pose proof (store_lookup_eq x m w) as Hx1.
    pose proof (store_heap x m w) as Hh1.
    rewrite Hrec in Hx1, Hh1. simpl in Hx1, Hh1.
    destruct (IH (store x m w) _ Hx1) as (w' & sw' & Hrun & Hx' & Hd & Hm & Hp & Hc & Hh).
    { unfold std.v_size in *. simpl. rewrite length_app. simpl.
      unfold Stopwatch.data. lia. }
    exists w', sw'. unfold Stopwatch.data in *. simpl in *.
    rewrite Hd, <- app_assoc, Hh, Hh1. splits; auto.
Qed.

(** X11.  A stopwatch made by the reserving constructor with [res + 1]
    within [max_size()] of the vector, so that [reserve] does not throw,
    takes its first [res + 1] snapshots without allocating: the
    constructor's block of [res + 1] cells is the only one handed out,
    and [begin()] keeps the base it had after construction. *)
Theorem reserved_records_do_not_allocate (w : world) (x : nat) (res : Z)
    (mode_in : bool) (nows : list Z) :
  0 <= res < std.max_size ->
  Z.of_nat (length nows) <= res + 1 ->
  exists w' sw,
    run w (ConstructReserve x res mode_in :: map (Record_ x) nows) = Some w' /\
    w_objs w' !! x = Some sw /\
    Stopwatch.data sw = nows /\
    Stopwatch.mode sw = mode_in /\
    Stopwatch.iterator.base (Stopwatch.begin sw) = w_heap w /\
    w_heap w' = w_heap w + (res + 1).
Proof.
  intros Hres Hlen.
  set (m := Stopwatch.ctor_reserve res mode_in).
  assert (m (w_heap w) =
          (Stopwatch.Make (std.Vector (w_heap w) (res + 1) []) mode_in,
           w_heap w + (res + 1))) as Hctor.
  { unfold m, Stopwatch.ctor_reserve, bind, std.reserve.
    rewrite to_size_t_small by (unfold std.max_size, SIZE_MAX in *; lia). simpl.
    destruct (Z.ltb_spec 0 (res + 1)); [reflexivity | lia]. }
  pose proof (store_lookup_eq x m w) as Hx1.
  pose proof (store_heap x m w) as Hh1.
  rewrite Hctor in Hx1, Hh1. simpl in Hx1, Hh1.
  destruct (records_within_capacity x nows (store x m w) _ Hx1)
    as (w' & sw' & Hrun & Hx' & Hd & Hm & Hp & Hc & Hh).
  { unfold std.v_size. simpl. lia. }
  exists w', sw'.
  change (run w (ConstructReserve x res mode_in :: map (Record_ x) nows))
    with (run (store x m w) (map (Record_ x) nows)).
  simpl in *. rewrite Hh, Hh1. splits; auto.
Qed.

Lemma reserved_records_do_not_allocate_witness :
  exists w' sw,
    run world_init (ConstructReserve 0 2 true :: map (Record_ 0) [0; 10; 25]) = Some w' /\
    w_objs w' !! 0%nat = Some sw /\
    Stopwatch.data sw = [0; 10; 25] /\
    Stopwatch.mode sw = true /\
    Stopwatch.iterator.base (Stopwatch.begin sw) = w_heap world_init /\
    w_heap w' = w_heap world_init + (2 + 1).
Proof.
  apply (reserved_records_do_not_allocate world_init 0%nat 2 true [0; 10; 25]).
  - vm_compute. split; [discriminate | reflexivity].
  - vm_compute. discriminate.
Defined.

(** X12.  [record()] moves the snapshots to another block exactly when
    the vector is full: then an iterator taken before the call and one
    taken after it have different bases, so that they compare unequal
    and their difference throws; while capacity is left, [begin()] after
    the call is [begin()] before it. *)
Theorem record_moves_storage_when_full (now : Z) (sw : Stopwatch.t) (h : heap) :
  1 <= h -> block_ok h (Stopwatch.measurements sw) ->
  (std.v_size (Stopwatch.measurements sw) = std.v_cap (Stopwatch.measurements sw) ->
   Stopwatch.iterator.base (Stopwatch.begin (Stopwatch.record now sw h).1) <>
     Stopwatch.iterator.base (Stopwatch.begin sw) /\
   Stopwatch.iterator.operator_eq
     (Stopwatch.begin sw) (Stopwatch.begin (Stopwatch.record now sw h).1) = false /\
   Stopwatch.iterator.operator_sub
     (Stopwatch.end_ (Stopwatch.record now sw h).1) (Stopwatch.begin sw) =
     Throw runtime_error) /\
  (std.v_size (Stopwatch.measurements sw) < std.v_cap (Stopwatch.measurements sw) ->
   Stopwatch.begin (Stopwatch.record now sw h).1 = Stopwatch.begin sw /\
   (Stopwatch.record now sw h).2 = h).
Proof.
  intros Hh Hok. unfold Stopwatch.record, bind, std.emplace_back.
  pose proof (v_size_nonneg (Stopwatch.measurements sw)) as Hn.
  split; intros Hfull.
  - destruct (Z.ltb_spec (std.v_size (Stopwatch.measurements sw))
                (std.v_cap (Stopwatch.measurements sw))) as [? | _]; [lia |].
    alloc_simpl.
    assert (h <> std.v_data (Stopwatch.measurements sw)) as Hne.
    { unfold block_ok, null in Hok. lia. }
    splits.
    + exact Hne.
    + unfold Stopwatch.iterator.operator_eq. simpl.
      destruct (Z.eqb_spec (std.v_data (Stopwatch.measurements sw)) h);
        [congruence | reflexivity].
    + apply operator_sub_throws. simpl. exact Hne.
  - destruct (Z.ltb_spec (std.v_size (Stopwatch.measurements sw))
                (std.v_cap (Stopwatch.measurements sw))) as [_ | ?]; [| lia].
    alloc_simpl. split; reflexivity.
Qed.

Lemma record_moves_storage_when_full_witness :
  Stopwatch.iterator.operator_sub
    (Stopwatch.end_ (Stopwatch.record 25 (Stopwatch.Make (std.Vector 1 2 [0; 10]) true) 3).1)
    (Stopwatch.begin (Stopwatch.Make (std.Vector 1 2 [0; 10]) true)) =
  Throw runtime_error.
Proof.
  destruct (record_moves_storage_when_full 25
              (Stopwatch.Make (std.Vector 1 2 [0; 10]) true) 3) as [Hfull _].
  - lia.
  - unfold block_ok, null. vm_compute. split; [discriminate |].
    right. repeat split; discriminate.
  - apply Hfull. reflexivity.
Defined.

(** ** Programs *)

(** X13.  The helper [recorded] of the unit tests always succeeds and
    leaves a stopwatch with the clock readings in the order of the calls:
    one snapshot more than there were sleeps, as many durations as
    sleeps, empty exactly when there was no sleep, in the mode asked
    for. *)
Theorem recorded_sizes (x : nat) (t0 : Z) (nows : list Z) (mode_in : bool) :
  exists w sw,
    run world_init (recorded x t0 nows mode_in) = Some w /\
    w_objs w !! x = Some sw /\
    Stopwatch.data sw = t0 :: nows /\
    Stopwatch.data_size sw = Z.of_nat (length nows) + 1 /\
    Stopwatch.size sw = Z.of_nat (length nows) /\
    (Stopwatch.empty sw = true <-> nows = []) /\
    Stopwatch.mode sw = mode_in.
Proof.
  destruct (run_recorded x t0 nows mode_in world_init world_ok_init)
    as (w & sw & Hrun & _ & Hx & Hd & Hm & _).
  exists w, sw.
  assert (Stopwatch.data_size sw = Z.of_nat (length nows) + 1) as Hsz.
  { unfold Stopwatch.data_size, std.v_size. unfold Stopwatch.data in Hd.
    rewrite Hd. simpl length. lia. }
  splits; auto.
  - rewrite size_is_max, Hsz. lia.
  - rewrite empty_iff_few, Hsz. destruct nows; simpl; split; intros H;
      try reflexivity; try discriminate; lia.
Qed.

Lemma is_sorted_snoc (l : list Z) (x : Z) :
  std.is_sorted l = true -> Forall (fun z => z <= x) l ->
  std.is_sorted (l ++ [x]) = true.
Proof.
  induction l as [| a l IH]; intros Hs Hall; [reflexivity |].
  apply is_sorted_cons in Hs as [Ha Hs]. inversion Hall; subst.
  change ((a :: l) ++ [x]) with (a :: (l ++ [x])).
  apply is_sorted_cons. split; [| apply IH; auto].
  apply Forall_app. split; [exact Ha | constructor; [lia | constructor]].
Qed.

Lemma ctor_data (mode_in : bool) (h : heap) :
  Stopwatch.data (Stopwatch.ctor mode_in h).1 = [].
Proof.
  unfold Stopwatch.ctor, Stopwatch.data, bind.
  pose proof (reserve_elems 2 std.vector_default h) as He.
  destruct (std.reserve 2 std.vector_default h). exact He.
Qed.

Lemma ctor_reserve_data (res : Z) (mode_in : bool) (h : heap) :
  Stopwatch.data (Stopwatch.ctor_reserve res mode_in h).1 = [].
Proof.
  unfold Stopwatch.ctor_reserve, Stopwatch.data, bind.
  pose proof (reserve_elems (to_size_t (res + 1)) std.vector_default h) as He.
  destruct (std.reserve (to_size_t (res + 1)) std.vector_default h). exact He.
Qed.

(** The snapshots a statement leaves in the stopwatches of the state. *)
Lemma step_data (w w1 : world) (o : op) (y : nat) (sw1 : Stopwatch.t) :
  step w o = Some w1 -> w_objs w1 !! y = Some sw1 ->
  (y <> target o /\ w_objs w !! y = Some sw1) \/
  (y = target o /\
   match o with
   | Construct _ _ | ConstructReserve _ _ _ | Clear _ => Stopwatch.data sw1 = []
   | Record_ x now =>
       exists sw, w_objs w !! x = Some sw /\
                  Stopwatch.data sw1 = Stopwatch.data sw ++ [now]
   | SetMode x _ =>
       exists sw, w_objs w !! x = Some sw /\ Stopwatch.data sw1 = Stopwatch.data sw
   | PlusAssign x z | Plus _ x z =>
       exists A B, w_objs w !! x = Some A /\ w_objs w !! z = Some B /\
                   Stopwatch.data sw1 =
                     std.set_union (Stopwatch.data A) (Stopwatch.data B)
   end).
Proof.
  intros Hstep Hy. destruct (decide (target o = y)) as [<- | Hne].
  - right. split; [reflexivity |].
    destruct o as [x md | x res md | x now | x | x md | x z | x z1 z2];
      simpl in *;
      repeat match type of Hstep with
             | context [w_objs w !! ?k] =>
                 destruct (w_objs w !! k) eqn:?; simpl in Hstep; [| discriminate]
             end;
      inversion Hstep; subst; rewrite store_lookup_eq in Hy; injection Hy as <-.
    + apply ctor_data.
    + apply ctor_reserve_data.
    + eexists. split; [reflexivity |]. apply record_result.
    + reflexivity.
    + eexists. split; [reflexivity |]. reflexivity.
    + do 2 eexists. split; [first [reflexivity | eassumption] |].
      split; [first [reflexivity | eassumption] |]. apply plus_assign_result.
    + do 2 eexists. split; [first [reflexivity | eassumption] |].
      split; [first [reflexivity | eassumption] |]. apply plus_result.
  - left. split; [auto |]. rewrite <- (step_frame w w1 o y Hstep Hne). exact Hy.
Qed.

Lemma clock_readings_cons (o : op) (os : list op) :
  clock_readings (o :: os) =
  match o with
  | Record_ _ now => now :: clock_readings os
  | _ => clock_readings os
  end.
Proof. destruct o; reflexivity. Qed.

Lemma run_keeps_sorted (os : list op) (w w' : world) :
  std.is_sorted (clock_readings os) = true ->
  (forall x sw, w_objs w !! x = Some sw ->
     std.is_sorted (Stopwatch.data sw) = true /\
     Forall (fun z => Forall (Z.le z) (clock_readings os)) (Stopwatch.data sw)) ->
  run w os = Some w' ->
  forall x sw, w_objs w' !! x = Some sw -> std.is_sorted (Stopwatch.data sw) = true.
Proof.
  revert w. induction os as [| o os IH]; intros w Hclock Hinv Hrun x sw Hx.
  - inversion Hrun; subst. apply (Hinv x sw Hx).
  - simpl in Hrun. destruct (step w o) as [w1 |] eqn:Hstep; simpl in Hrun;
      [| discriminate].
    assert (std.is_sorted (clock_readings os) = true /\
            forall l, Forall (fun z => Forall (Z.le z) (clock_readings (o :: os))) l ->
                      Forall (fun z => Forall (Z.le z) (clock_readings os)) l)
      as [Hclock' Hweak].
    { rewrite clock_readings_cons in *.
      destruct o; try (split; [exact Hclock | auto]).
      destruct (proj1 (is_sorted_cons _ _) Hclock) as [_ Hs]. split; [exact Hs |].
      intros l Hl. eapply Forall_impl; [exact Hl |].
      simpl. intros z Hz. inversion Hz; auto. }
    refine (IH w1 Hclock' _ Hrun x sw Hx).
    clear x sw Hx. intros y sw1 Hy.
    destruct (step_data w w1 o y sw1 Hstep Hy) as [[Hne Hold] | [-> Hnew]].
    { destruct (Hinv y sw1 Hold) as [Hs Hall]. auto. }
    destruct o as [x md | x res md | x now | x | x md | x z | x z1 z2]; simpl in Hnew.
    + rewrite Hnew. split; [reflexivity | constructor].
    + rewrite Hnew. split; [reflexivity | constructor].
    + destruct Hnew as (sw0 & Hsw0 & ->).
      destruct (Hinv x sw0 Hsw0) as [Hs Hall].
      rewrite clock_readings_cons in Hall, Hclock.
      destruct (proj1 (is_sorted_cons _ _) Hclock) as [Hnow _].
      split.
      * apply is_sorted_snoc; auto.
        eapply Forall_impl; [exact Hall |]. simpl. intros z Hz. inversion Hz; auto.
      * apply Forall_app. split.
        -- eapply Forall_impl; [exact Hall |]. simpl. intros z Hz. inversion Hz; auto.
        -- constructor; [exact Hnow | constructor].
    + rewrite Hnew. split; [reflexivity | constructor].
    + destruct Hnew as (sw0 & Hsw0 & ->). destruct (Hinv x sw0 Hsw0). auto.
    + destruct Hnew as (A & B & HA & HB & ->).
      destruct (Hinv x A HA) as [HsA HallA]. destruct (Hinv z B HB) as [HsB HallB].
      split; [apply set_union_sorted | apply Forall_set_union]; auto.
    + destruct Hnew as (A & B & HA & HB & ->).
      destruct (Hinv z1 A HA) as [HsA HallA]. destruct (Hinv z2 B HB) as [HsB HallB].
      split; [apply set_union_sorted | apply Forall_set_union]; auto.
Qed.

(** X14.  With a clock that never runs backwards, every stopwatch of
    every state a program reaches holds its snapshots in sorted order,
    whatever the program constructs, records, clears and interleaves. *)
Theorem monotone_clock_keeps_sorted (os : list op) (w : world) (x : nat)
    (sw : Stopwatch.t) :
  std.is_sorted (clock_readings os) = true ->
  run world_init os = Some w ->
  w_objs w !! x = Some sw ->
  std.is_sorted (Stopwatch.data sw) = true.
Proof.
  intros Hclock Hrun Hx.
  apply (run_keeps_sorted os world_init w Hclock) with (x := x); auto.
  intros y sw0 Hy. unfold world_init in Hy. simpl in Hy.
  rewrite lookup_empty in Hy. discriminate.
Qed.

Lemma monotone_clock_keeps_sorted_witness :
  std.is_sorted
    (Stopwatch.data (Stopwatch.Make (std.Vector 9 5 [0; 3; 7; 10; 25]) true)) = true.
Proof.
  apply (monotone_clock_keeps_sorted
           [Construct 0 true; Record_ 0 0; Construct 1 false; Record_ 1 3;
            Record_ 1 7; Record_ 0 10; Record_ 0 25; PlusAssign 0 1]
           (World 14 (<[0%nat := Stopwatch.Make (std.Vector 9 5 [0; 3; 7; 10; 25]) true]>
                       (<[1%nat := Stopwatch.Make (std.Vector 3 2 [3; 7]) false]> ∅)))
           0%nat).
  - reflexivity.
  - vm_compute. reflexivity.
  - reflexivity.
Defined.

(** ** Durations of sorted snapshots *)

Lemma sorted_lookup_le (l : list Z) (i j : nat) (a b : Z) :
  std.is_sorted l = true -> (i <= j)%nat ->
  l !! i = Some a -> l !! j = Some b -> a <= b.
Proof.
  revert i j. induction l as [| x l IH]; intros i j Hs Hij Ha Hb.
  - rewrite lookup_nil in Ha. discriminate.
  - apply is_sorted_cons in Hs as [Hall Hs].
    destruct i as [| i], j as [| j]; simpl in *.
    + inversion Ha; inversion Hb; subst. lia.
    + inversion Ha; subst. apply (Forall_lookup_1 _ _ _ _ Hall Hb).
    + lia.
    + apply (IH i j); auto. lia.
Qed.

Lemma quot_add_bounds (x y d : Z) :
  0 <= x -> 0 <= y -> 0 < d ->
  x ÷ d + y ÷ d <= (x + y) ÷ d <= x ÷ d + y ÷ d + 1.
Proof.
  intros Hx Hy Hd.
  rewrite !Z.quot_div_nonneg by lia.
  pose proof (Z.div_mod x d ltac:(lia)). pose proof (Z.div_mod y d ltac:(lia)).
  pose proof (Z.div_mod (x + y) d ltac:(lia)).
  pose proof (Z.mod_pos_bound x d Hd). pose proof (Z.mod_pos_bound y d Hd).
  pose proof (Z.mod_pos_bound (x + y) d Hd).
  split; nia.
Qed.

Lemma duration_cast_mono (num den d1 d2 : Z) :
  0 <= num -> 0 < den -> d1 <= d2 ->
  std.duration_cast num den d1 <= std.duration_cast num den d2.
Proof.
  intros Hnum Hden Hd. unfold std.duration_cast.
  apply Z.quot_le_mono; [exact Hden |]. nia.
Qed.

Lemma plus_one_mono (ty : integral) (i j : Z) :
  0 <= i <= j -> plus_one ty j = Ok (j + 1) -> plus_one ty i = Ok (i + 1).
Proof.
  intros Hij. unfold plus_one.
  destruct (Z.ltb_spec (int_bits ty) 32) as [| Hbits]; [reflexivity |].
  destruct (int_signed ty).
  - destruct (Z.leb_spec (j + 1) (int_max ty)); [| discriminate].
    intros _. destruct (Z.leb_spec (i + 1) (int_max ty)); [reflexivity | lia].
  - intros H. inversion H as [Hm]. f_equal.
    assert (0 < 2 ^ int_bits ty) as Hpos by (apply Z.pow_pos_nonneg; lia).
    pose proof (Z.mod_pos_bound (j + 1) (2 ^ int_bits ty) Hpos).
    apply Z.mod_small. lia.
Qed.

Lemma ticks_fit_lookup (num : Z) (l : list Z) (i j : nat) (x y : Z) :
  ticks_fit num l = true -> l !! i = Some x -> l !! j = Some y ->
  in_rep (y - x) = true /\ in_rep ((y - x) * num) = true.
Proof.
  intros Hfit Hx Hy. unfold ticks_fit in Hfit.
  rewrite forallb_forall in Hfit.
  pose proof (Hfit x) as Hrow. rewrite forallb_forall in Hrow.
  apply andb_true_iff. apply Hrow.
  - apply list_elem_of_In. eapply list_elem_of_lookup_2. exact Hx.
  - apply list_elem_of_In. eapply list_elem_of_lookup_2. exact Hy.
Qed.

(** X15.  On sorted snapshots, with a non-negative ratio of the periods,
    for indices of an integral type that holds their increment, and
    while the differences of the snapshots and their products with the
    numerator of the ratio fit the 64-bit representation: no duration is
    negative, a split is at most the elapsed time at the same index, the
    two are equal at index 0, and the elapsed times do not decrease as
    the index grows. *)
Theorem sorted_durations_ordered (num den : Z) (ty : integral)
    (sw : Stopwatch.t) (i j : Z) :
  0 <= num -> 0 < den ->
  std.is_sorted (Stopwatch.data sw) = true ->
  ticks_fit num (Stopwatch.data sw) = true ->
  Stopwatch.data_size sw <= SIZE_MAX ->
  0 <= i <= j -> j < Stopwatch.size sw ->
  plus_one ty j = Ok (j + 1) ->
  exists s e e',
    Stopwatch.operator_index_typed num den ty
      (Stopwatch.set_mode Stopwatch.SPLIT_MODE sw) i = Ok s /\
    Stopwatch.operator_index_typed num den ty
      (Stopwatch.set_mode Stopwatch.ELAPSE_MODE sw) i = Ok e /\
    Stopwatch.operator_index_typed num den ty
      (Stopwatch.set_mode Stopwatch.ELAPSE_MODE sw) j = Ok e' /\
    0 <= s <= e /\ e <= e' /\ (i = 0 -> s = e).
Proof.
  intros Hnum Hden Hs Hfit Hmax Hij Hj Hpj.
  pose proof (plus_one_mono ty i j Hij Hpj) as Hpi.
  destruct (operator_index_typed_value ty sw i Hmax ltac:(lia) Hpi)
    as (first & a & b & H0 & Ha & Hb & Hvi).
  destruct (operator_index_typed_value ty sw j Hmax ltac:(lia) Hpj)
    as (first' & a' & b' & H0' & Ha' & Hb' & Hvj).
  assert (first' = first) as -> by congruence.
  pose proof (sorted_lookup_le _ 0 (Z.to_nat i) _ _ Hs ltac:(lia) H0 Ha) as Hfa.
  pose proof (sorted_lookup_le _ (Z.to_nat i) (Z.to_nat (i + 1)) _ _ Hs
                ltac:(lia) Ha Hb) as Hab.
  pose proof (sorted_lookup_le _ (Z.to_nat (i + 1)) (Z.to_nat (j + 1)) _ _ Hs
                ltac:(lia) Hb Hb') as Hbb.
  destruct (ticks_fit_lookup num _ _ _ _ _ Hfit Ha Hb) as (Fab & Fab').
  destruct (ticks_fit_lookup num _ _ _ _ _ Hfit H0 Hb) as (Ffb & Ffb').
  destruct (ticks_fit_lookup num _ _ _ _ _ Hfit H0 Hb') as (Ffb2 & Ffb2').
  exists (std.duration_cast num den (b - a)),
         (std.duration_cast num den (b - first)),
         (std.duration_cast num den (b' - first)).
  splits.
  - apply (Hvi num den true); assumption.
  - apply (Hvi num den false); assumption.
  - apply (Hvj num den false); assumption.
  - unfold std.duration_cast. apply Z.quot_pos; [nia | lia].
  - apply duration_cast_mono; auto. lia.
  - apply duration_cast_mono; auto. lia.
  - intros ->. change (Z.to_nat 0) with 0%nat in Ha.
    assert (a = first) as -> by congruence. reflexivity.
Qed.

Lemma sorted_durations_ordered_witness :
  exists s e e',
    Stopwatch.operator_index_typed 1 1000 (Integral true 32)
      (Stopwatch.set_mode Stopwatch.SPLIT_MODE
         (Stopwatch.Make (std.Vector 1 4 [0; 1500; 2999; 4000]) true)) 1 = Ok s /\
    Stopwatch.operator_index_typed 1 1000 (Integral true 32)
      (Stopwatch.set_mode Stopwatch.ELAPSE_MODE
         (Stopwatch.Make (std.Vector 1 4 [0; 1500; 2999; 4000]) true)) 1 = Ok e /\
    Stopwatch.operator_index_typed 1 1000 (Integral true 32)
      (Stopwatch.set_mode Stopwatch.ELAPSE_MODE
         (Stopwatch.Make (std.Vector 1 4 [0; 1500; 2999; 4000]) true)) 2 = Ok e' /\
    0 <= s <= e /\ e <= e' /\ (1 = 0 -> s = e).
Proof.
  apply (sorted_durations_ordered 1 1000 (Integral true 32)
           (Stopwatch.Make (std.Vector 1 4 [0; 1500; 2999; 4000]) true) 1 2).
  - lia.
  - lia.
  - reflexivity.
  - reflexivity.
  - vm_compute. discriminate.
  - lia.
  - vm_compute. reflexivity.
  - reflexivity.
Defined.

(** X16.  On sorted snapshots, with a non-negative ratio of the periods,
    for indices of an integral type that holds their increment, and
    while the differences of the snapshots and their products with the
    numerator of the ratio fit the 64-bit representation: the elapsed
    time at the next index is the elapsed time at this index plus the
    next split, or one unit more: each truncated split loses less than
    one unit against the truncated total. *)
Theorem elapsed_adds_split (num den : Z) (ty : integral)
    (sw : Stopwatch.t) (i : Z) :
  0 <= num -> 0 < den ->
  std.is_sorted (Stopwatch.data sw) = true ->
  ticks_fit num (Stopwatch.data sw) = true ->
  Stopwatch.data_size sw <= SIZE_MAX ->
  0 <= i -> i + 1 < Stopwatch.size sw ->
  plus_one ty (i + 1) = Ok (i + 1 + 1) ->
  exists e s e',
    Stopwatch.operator_index_typed num den ty
      (Stopwatch.set_mode Stopwatch.ELAPSE_MODE sw) i = Ok e /\
    Stopwatch.operator_index_typed num den ty
      (Stopwatch.set_mode Stopwatch.SPLIT_MODE sw) (i + 1) = Ok s /\
    Stopwatch.operator_index_typed num den ty
      (Stopwatch.set_mode Stopwatch.ELAPSE_MODE sw) (i + 1) = Ok e' /\
    e + s <= e' <= e + s + 1.
Proof.
  intros Hnum Hden Hs Hfit Hmax Hi Hi1 Hpj.
  pose proof (plus_one_mono ty i (i + 1) ltac:(lia) Hpj) as Hpi.
  destruct (operator_index_typed_value ty sw i Hmax ltac:(lia) Hpi)
    as (first & a & b & H0 & Ha & Hb & Hvi).
  destruct (operator_index_typed_value ty sw (i + 1) Hmax ltac:(lia) Hpj)
    as (first' & b0 & c & H0' & Hb0 & Hc & Hvj).
  assert (first' = first) as -> by congruence.
  assert (b0 = b) as -> by congruence.
  pose proof (sorted_lookup_le _ 0 (Z.to_nat (i + 1)) _ _ Hs ltac:(lia) H0 Hb) as Hfb.
  pose proof (sorted_lookup_le _ (Z.to_nat (i + 1)) (Z.to_nat (i + 1 + 1)) _ _ Hs
                ltac:(lia) Hb Hc) as Hbc.
  destruct (ticks_fit_lookup num _ _ _ _ _ Hfit H0 Hb) as (Ffb & Ffb').
  destruct (ticks_fit_lookup num _ _ _ _ _ Hfit Hb Hc) as (Fbc & Fbc').
  destruct (ticks_fit_lookup num _ _ _ _ _ Hfit H0 Hc) as (Ffc & Ffc').
  exists (std.duration_cast num den (b - first)),
         (std.duration_cast num den (c - b)),
         (std.duration_cast num den (c - first)).
  pose proof (quot_add_bounds ((b - first) * num) ((c - b) * num) den
                ltac:(nia) ltac:(nia) Hden) as Hq.
  replace ((b - first) * num + (c - b) * num) with ((c - first) * num) in Hq by lia.
  unfold std.duration_cast.
  split; [apply (Hvi num den false); assumption |].
  split; [apply (Hvj num den true); assumption |].
  split; [apply (Hvj num den false); assumption | exact Hq].
Qed.

Lemma elapsed_adds_split_witness :
  exists e s e',
    Stopwatch.operator_index_typed 1 1000 (Integral false 64)
      (Stopwatch.set_mode Stopwatch.ELAPSE_MODE
         (Stopwatch.Make (std.Vector 1 4 [0; 1500; 2999; 4000]) true)) 0 = Ok e /\
    Stopwatch.operator_index_typed 1 1000 (Integral false 64)
      (Stopwatch.set_mode Stopwatch.SPLIT_MODE
         (Stopwatch.Make (std.Vector 1 4 [0; 1500; 2999; 4000]) true)) (0 + 1) = Ok s /\
    Stopwatch.operator_index_typed 1 1000 (Integral false 64)
      (Stopwatch.set_mode Stopwatch.ELAPSE_MODE
         (Stopwatch.Make (std.Vector 1 4 [0; 1500; 2999; 4000]) true)) (0 + 1) = Ok e' /\
    e + s <= e' <= e + s + 1.
Proof.
  apply (elapsed_adds_split 1 1000 (Integral false 64)
           (Stopwatch.Make (std.Vector 1 4 [0; 1500; 2999; 4000]) true) 0).
  - lia.
  - lia.
  - reflexivity.
  - reflexivity.
  - vm_compute. discriminate.
  - lia.
  - vm_compute. reflexivity.
  - reflexivity.
Defined.

(** ** The checked accessors on every index *)

(** X17.  What [operator[]] does on every index of a 64-bit integral
    type: inside [[0, size())] it returns a duration; on [-1] (which is
    [SIZE_MAX] for an unsigned argument), once a snapshot is recorded, it
    returns 0 in elapse mode and reads the vector unchecked in split
    mode; everywhere else it throws [std::out_of_range]. *)
Theorem operator_index_outcomes (num den : Z) (sw : Stopwatch.t) (index : Z) :
  Stopwatch.data_size sw <= 2 ^ 63 ->
  - 2 ^ 63 <= index <= SIZE_MAX ->
  (0 <= index < Stopwatch.size sw ->
   exists d, Stopwatch.operator_index num den sw index = Ok d) /\
  ((index = -1 \/ index = SIZE_MAX) /\ 0 < Stopwatch.data_size sw ->
   Stopwatch.operator_index num den sw index =
     if Stopwatch.mode sw then Undefined else Ok 0) /\
  (~ (0 <= index < Stopwatch.size sw) ->
   ~ ((index = -1 \/ index = SIZE_MAX) /\ 0 < Stopwatch.data_size sw) ->
   Stopwatch.operator_index num den sw index = Throw out_of_range).
Proof.
  intros Hmax Hidx. unfold SIZE_MAX in *.
  pose proof (v_size_nonneg (Stopwatch.measurements sw)) as Hn.
  splits.
  - intros Hi.
    destruct (operator_index_value sw index ltac:(unfold SIZE_MAX; lia) Hi)
      as (first & a & b & _ & _ & _ & Hval).
    pose proof (Hval num den (Stopwatch.mode sw)) as Hv.
    rewrite set_mode_same in Hv. eauto.
  - intros [Hm1 Hpos]. unfold Stopwatch.data_size in *.
    assert (to_size_t (index + 1) = 0) as H1.
    { unfold to_size_t. destruct Hm1 as [-> | ->]; reflexivity. }
    assert (to_size_t index = 2 ^ 64 - 1) as H2.
    { unfold to_size_t. destruct Hm1 as [-> | ->]; reflexivity. }
    destruct (front_nonempty (Stopwatch.measurements sw) Hpos) as (first & Hf & Hfront).
    destruct (at_in_range (Stopwatch.measurements sw) 0 ltac:(lia)) as (x & Hx & Hat).
    change (Z.to_nat 0) with 0%nat in Hx.
    assert (x = first) as -> by congruence.
    unfold Stopwatch.operator_index, Stopwatch.mode. rewrite H1, H2, Hat. simpl.
    destruct (Stopwatch.sw_mode sw); simpl.
    + unfold std.index.
      destruct (Z.ltb_spec (2 ^ 64 - 1) (std.v_size (Stopwatch.measurements sw)));
        [lia | reflexivity].
    + rewrite Hfront. simpl. unfold std.duration_cast.
      rewrite Z.sub_diag. reflexivity.
  - intros Hout Hm1. apply operator_index_throws.
    rewrite size_is_max in Hout. unfold Stopwatch.data_size in *.
    destruct (Z.le_gt_cases 0 (index + 1)) as [Hpos | Hneg].
    + destruct (Z.eq_dec index (2 ^ 64 - 1)) as [-> | Hne].
      * change (to_size_t (2 ^ 64 - 1 + 1)) with 0. lia.
      * rewrite to_size_t_small by (unfold SIZE_MAX; lia). lia.
    + assert (to_size_t (index + 1) = index + 1 + 2 ^ 64) as ->.
      { unfold to_size_t. symmetry.
        apply (Z.mod_unique (index + 1) (2 ^ 64) (-1)); lia. }
      lia.
Qed.

Lemma operator_index_outcomes_witness :
  Stopwatch.operator_index 1 1 (Stopwatch.Make (std.Vector 1 2 [5; 9]) true) 7 =
  Throw out_of_range.
Proof.
  apply (operator_index_outcomes 1 1 (Stopwatch.Make (std.Vector 1 2 [5; 9]) true) 7).
  - vm_compute. discriminate.
  - vm_compute. split; discriminate.
  - change (Stopwatch.size (Stopwatch.Make (std.Vector 1 2 [5; 9]) true)) with 1.
    lia.
  - intros [[H | H] _]; discriminate H.
Defined.

(** X18.  [data(index)] reads [data()]: on an index of a 64-bit integral
    type it returns the element of the vector at that index, and throws
    [std::out_of_range] when the vector has none there; it never reads
    unchecked. *)
Theorem data_at_reads_data (sw : Stopwatch.t) (index : Z) :
  Stopwatch.data_size sw <= 2 ^ 63 ->
  - 2 ^ 63 <= index <= SIZE_MAX ->
  Stopwatch.data_at sw index =
  match (if 0 <=? index then Stopwatch.data sw !! Z.to_nat index else None) with
  | Some x => Ok x
  | None => Throw out_of_range
  end.
Proof.
  intros Hmax Hidx.
  pose proof (v_size_nonneg (Stopwatch.measurements sw)) as Hn.
  destruct (Z.leb_spec 0 index) as [Hpos | Hneg].
  - destruct (Z.lt_ge_cases index (Stopwatch.data_size sw)) as [Hlt | Hge].
    + destruct (data_at_lookup sw index) as (x & Hx & Hat);
        [unfold SIZE_MAX; lia | lia |].
      rewrite Hx. exact Hat.
    + rewrite lookup_ge_None_2
        by (unfold Stopwatch.data_size, std.v_size, Stopwatch.data in *; lia).
      apply (data_at_throws sw index Hmax Hidx). lia.
  - apply (data_at_throws sw index Hmax Hidx). lia.
Qed.

Lemma data_at_reads_data_witness :
  Stopwatch.data_at (Stopwatch.Make (std.Vector 1 2 [5; 9]) true) 1 =
  match (if 0 <=? 1
         then Stopwatch.data (Stopwatch.Make (std.Vector 1 2 [5; 9]) true) !! Z.to_nat 1
         else None) with
  | Some x => Ok x
  | None => Throw out_of_range
  end.
Proof.
  apply (data_at_reads_data (Stopwatch.Make (std.Vector 1 2 [5; 9]) true) 1).
  - vm_compute. discriminate.
  - vm_compute. split; discriminate.
Defined.

(** ** The algebra of interleaving *)

Lemma set_union_comm (l1 l2 : list Z) :
  std.is_sorted l1 = true -> std.is_sorted l2 = true ->
  std.set_union l1 l2 = std.set_union l2 l1.
Proof.
  intros H1 H2. apply sorted_occurrences_eq; try (apply set_union_sorted; auto).
  intros z. rewrite !set_union_occurrences by auto. lia.
Qed.

Lemma set_union_assoc (l1 l2 l3 : list Z) :
  std.is_sorted l1 = true -> std.is_sorted l2 = true -> std.is_sorted l3 = true ->
  std.set_union (std.set_union l1 l2) l3 = std.set_union l1 (std.set_union l2 l3).
Proof.
  intros H1 H2 H3.
  pose proof (set_union_sorted l1 l2 H1 H2). pose proof (set_union_sorted l2 l3 H2 H3).
  apply sorted_occurrences_eq; try (apply set_union_sorted; auto).
  intros z. rewrite !set_union_occurrences by auto. lia.
Qed.

(** X19.  On sorted snapshots interleaving is commutative, associative
    and idempotent in the snapshots it leaves, whatever the allocator
    does; only the mode is that of the left operand. *)
Theorem interleaving_algebra (A B C : Stopwatch.t) (h1 h2 h3 h4 : heap) :
  std.is_sorted (Stopwatch.data A) = true ->
  std.is_sorted (Stopwatch.data B) = true ->
  std.is_sorted (Stopwatch.data C) = true ->
  Stopwatch.data (Stopwatch.operator_plus A B h1).1 =
    Stopwatch.data (Stopwatch.operator_plus B A h2).1 /\
  Stopwatch.data
    (Stopwatch.operator_plus (Stopwatch.operator_plus A B h1).1 C h3).1 =
    Stopwatch.data
      (Stopwatch.operator_plus A (Stopwatch.operator_plus B C h2).1 h4).1 /\
  Stopwatch.data (Stopwatch.operator_plus A A h1).1 = Stopwatch.data A /\
  Stopwatch.data (Stopwatch.operator_plus_assign A A h1).1 = Stopwatch.data A /\
  Stopwatch.mode (Stopwatch.operator_plus A B h1).1 = Stopwatch.mode A /\
  Stopwatch.mode (Stopwatch.operator_plus B A h2).1 = Stopwatch.mode B.
Proof.
  intros HA HB HC.
  repeat match goal with
         | |- context [Stopwatch.data (Stopwatch.operator_plus ?X ?Y ?h).1] =>
             rewrite (proj1 (plus_result X Y h))
         | |- context [Stopwatch.data (Stopwatch.operator_plus_assign ?X ?Y ?h).1] =>
             rewrite (proj1 (plus_assign_result X Y h))
         end.
  splits.
  - apply set_union_comm; auto.
  - apply set_union_assoc; auto.
  - apply set_union_self; auto.
  - apply set_union_self; auto.
  - apply plus_result.
  - apply plus_result.
Qed.

Lemma interleaving_algebra_witness :
  Stopwatch.data
    (Stopwatch.operator_plus (Stopwatch.Make (std.Vector 1 4 [0; 10; 25]) true)
                             (Stopwatch.Make (std.Vector 5 4 [3; 10; 30]) false) 9).1 =
  Stopwatch.data
    (Stopwatch.operator_plus (Stopwatch.Make (std.Vector 5 4 [3; 10; 30]) false)
                             (Stopwatch.Make (std.Vector 1 4 [0; 10; 25]) true) 9).1.
Proof.
  apply (interleaving_algebra
           (Stopwatch.Make (std.Vector 1 4 [0; 10; 25]) true)
           (Stopwatch.Make (std.Vector 5 4 [3; 10; 30]) false)
           (Stopwatch.Make (std.Vector 9 2 [7]) true) 9 9 9 9); reflexivity.
Defined.

(** X20.  Interleaving with a stopwatch that holds no snapshot leaves the
    snapshots of the other one as they are, on either side and whether
    sorted or not. *)
Theorem interleaving_with_empty (A E : Stopwatch.t) (h : heap) :
  Stopwatch.data E = [] ->
  Stopwatch.data (Stopwatch.operator_plus_assign A E h).1 = Stopwatch.data A /\
  Stopwatch.data (Stopwatch.operator_plus_assign E A h).1 = Stopwatch.data A /\
  Stopwatch.data (Stopwatch.operator_plus A E h).1 = Stopwatch.data A /\
  Stopwatch.data (Stopwatch.operator_plus E A h).1 = Stopwatch.data A.
Proof.
  intros HE.
  rewrite !(proj1 (plus_assign_result _ _ _)), !(proj1 (plus_result _ _ _)), HE.
  rewrite set_union_nil_l, set_union_nil_r. auto.
Qed.

Lemma interleaving_with_empty_witness :
  Stopwatch.data
    (Stopwatch.operator_plus_assign (Stopwatch.Make (std.Vector 1 4 [25; 0; 10]) true)
                                    (Stopwatch.Make (std.Vector 5 2 []) false) 7).1 =
  Stopwatch.data (Stopwatch.Make (std.Vector 1 4 [25; 0; 10]) true).
Proof.
  apply (interleaving_with_empty (Stopwatch.Make (std.Vector 1 4 [25; 0; 10]) true)
                                 (Stopwatch.Make (std.Vector 5 2 []) false) 7).
  reflexivity.
Defined.

Lemma includes_nil (l : list Z) : std.includes l [] = true.
Proof. destruct l; reflexivity. Qed.

Lemma includes_refl (l : list Z) : std.includes l l = true.
Proof.
  induction l as [| x l IH]; [reflexivity |].
  simpl. rewrite Z.ltb_irrefl. exact IH.
Qed.

Lemma includes_cons (x y : Z) (l1 l2 : list Z) :
  std.includes (x :: l1) (y :: l2) =
  if y <? x then false
  else if x <? y then std.includes l1 (y :: l2)
  else std.includes l1 l2.
Proof. reflexivity. Qed.

(** X21.  The assertions of the interleaving test hold by construction:
    [std::includes] finds both operands in the result of [operator+] and
    of [operator+=], whatever the snapshots are. *)
Theorem interleaving_includes_operands (A B : Stopwatch.t) (h : heap) :
  std.includes (Stopwatch.data (Stopwatch.operator_plus A B h).1)
               (Stopwatch.data A) = true /\
  std.includes (Stopwatch.data (Stopwatch.operator_plus A B h).1)
               (Stopwatch.data B) = true /\
  std.includes (Stopwatch.data (Stopwatch.operator_plus_assign A B h).1)
               (Stopwatch.data A) = true /\
  std.includes (Stopwatch.data (Stopwatch.operator_plus_assign A B h).1)
               (Stopwatch.data B) = true.
Proof.
  rewrite (proj1 (plus_result A B h)), (proj1 (plus_assign_result A B h)).
  assert (forall l1 l2,
            std.includes (std.set_union l1 l2) l1 = true /\
            std.includes (std.set_union l1 l2) l2 = true) as Hinc.
  { apply (set_union_ind
             (fun l1 l2 r => std.includes r l1 = true /\ std.includes r l2 = true)).
    - intros l2. split; [apply includes_nil | apply includes_refl].
    - intros l1. split; [apply includes_refl | apply includes_nil].
    - intros x y l1 l2 Hxy [IH1 IH2]. rewrite !includes_cons, Z.ltb_irrefl.
      destruct (Z.ltb_spec y x); [lia |].
      destruct (Z.ltb_spec x y); [| lia]. auto.
    - intros x y l1 l2 Hxy [IH1 IH2]. rewrite !includes_cons, Z.ltb_irrefl.
      destruct (Z.ltb_spec x y); [lia |].
      destruct (Z.ltb_spec y x); [| lia]. auto.
    - intros x l1 l2 [IH1 IH2]. rewrite !includes_cons, Z.ltb_irrefl. auto. }
  destruct (Hinc (Stopwatch.data A) (Stopwatch.data B)). auto.
Qed.

(** ** The tolerance of the unit tests *)

(** X22.  [approx], computed in [long]: it holds exactly when
    [actual - error] and [actual + error] fit the type and the two
    values differ by at most the error, and it has no defined result
    exactly when the difference overflows, or the first comparison holds
    and the sum overflows.  While the sums and differences fit, it is
    symmetric in the two values and errors add up along a chain of
    approximations; a negative error approves of nothing; and
    [approx(LONG_MAX, LONG_MAX, 1)] overflows. *)
Theorem approx_tolerance (a b c e1 e2 : Z) :
  (approx a b e1 = Ok true <->
   in_rep (a - e1) = true /\ in_rep (a + e1) = true /\ Z.abs (a - b) <= e1) /\
  (approx a b e1 = Undefined <->
   in_rep (a - e1) = false \/ (a - e1 <= b /\ in_rep (a + e1) = false)) /\
  (in_rep (a - e1) = true -> in_rep (a + e1) = true ->
   approx a b e1 = Ok (Z.abs (a - b) <=? e1)) /\
  (in_rep (a - e1) = true -> in_rep (a + e1) = true ->
   in_rep (b - e1) = true -> in_rep (b + e1) = true ->
   approx a b e1 = approx b a e1) /\
  (approx a b e1 = Ok true -> approx b c e2 = Ok true ->
   in_rep (a - (e1 + e2)) = true -> in_rep (a + (e1 + e2)) = true ->
   approx a c (e1 + e2) = Ok true) /\
  (e1 < 0 -> approx a b e1 <> Ok true) /\
  approx (2 ^ 63 - 1) (2 ^ 63 - 1) 1 = Undefined.
Proof.
  assert (forall x y e,
            approx x y e = Ok true <->
            in_rep (x - e) = true /\ in_rep (x + e) = true /\ Z.abs (x - y) <= e)
    as Htrue.
  { intros x y e. unfold approx, rep.
    destruct (in_rep (x - e)); simpl.
    - destruct (Z.leb_spec (x - e) y); simpl.
      + destruct (in_rep (x + e)); simpl.
        * destruct (Z.leb_spec y (x + e)); split;
            try (intros (_ & _ & H'); f_equal; lia);
            try (intros H'; splits; auto; try lia; discriminate H').
        * split; [discriminate | intros (_ & H' & _); discriminate H'].
      + split; [discriminate | intros (_ & _ & H'); lia].
    - split; [discriminate | intros (H' & _); discriminate H']. }
  assert (forall x y e,
            in_rep (x - e) = true -> in_rep (x + e) = true ->
            approx x y e = Ok (Z.abs (x - y) <=? e)) as Hfit.
  { intros x y e Hlo Hhi. unfold approx, rep. rewrite Hlo. simpl.
    destruct (Z.leb_spec (x - e) y); simpl.
    - rewrite Hhi. simpl. f_equal.
      destruct (Z.leb_spec y (x + e)), (Z.leb_spec (Z.abs (x - y)) e);
        try reflexivity; lia.
    - f_equal. destruct (Z.leb_spec (Z.abs (x - y)) e); [lia | reflexivity]. }
  splits.
  - apply Htrue.
  - unfold approx, rep. split.
    + destruct (in_rep (a - e1)); simpl; [| intros _; left; reflexivity].
      destruct (Z.leb_spec (a - e1) b); simpl; [| discriminate].
      destruct (in_rep (a + e1)); simpl; [discriminate |].
      intros _. right. split; [assumption | reflexivity].
    + intros [Hlo | [Hle Hhi]].
      * rewrite Hlo. reflexivity.
      * destruct (in_rep (a - e1)); simpl; [| reflexivity].
        destruct (Z.leb_spec (a - e1) b); [| lia]. rewrite Hhi. reflexivity.
  - apply Hfit.
  - intros Ha1 Ha2 Hb1 Hb2. rewrite (Hfit a b), (Hfit b a) by assumption.
    f_equal. replace (b - a) with (- (a - b)) by lia. rewrite Z.abs_opp.
    reflexivity.
  - intros Hab Hbc Hlo Hhi. apply Htrue in Hab as (_ & _ & Hab).
    apply Htrue in Hbc as (_ & _ & Hbc). apply Htrue. splits; auto. lia.
  - intros He Hab. apply Htrue in Hab as (_ & _ & Hab). lia.
  - reflexivity.
Qed.

Lemma approx_tolerance_witness :
  approx 10 13 (2 + 2) = Ok true /\ approx 10 12 2 = approx 12 10 2.
Proof.
  destruct (approx_tolerance 10 12 13 2 2)
    as (_ & _ & _ & Hsym & Hchain & _).
  split.
  - apply Hchain; reflexivity.
  - apply Hsym; reflexivity.
Defined.

(** ** The block of an interleaved stopwatch *)

Lemma back_insert_within_capacity (xs : list Z) (v : std.vector) (h : heap) :
  std.v_size v + Z.of_nat (length xs) <= std.v_cap v ->
  std.back_insert xs v h =
  (std.Vector (std.v_data v) (std.v_cap v) (std.v_elems v ++ xs), h).
Proof.
  revert v. induction xs as [| x xs IH]; intros v Hcap.
  - simpl. unfold ret. rewrite app_nil_r. destruct v. reflexivity.
  - simpl in *. unfold bind, std.emplace_back.
    destruct (Z.ltb_spec (std.v_size v) (std.v_cap v)); [| lia].
    unfold ret. rewrite IH.
    + simpl. rewrite <- app_assoc. reflexivity.
    + unfold std.v_size in *. simpl. rewrite length_app. simpl. lia.
Qed.

(** X23.  [operator+=] allocates once, a block for as many snapshots as
    the two operands hold together, and fills it without moving it; so
    when either operand holds a snapshot the receiver is in another
    block afterwards, and an iterator taken before the call and one taken
    after it have a difference that throws. *)
Theorem plus_assign_allocates_once (A B : Stopwatch.t) (h : heap) :
  1 <= h -> block_ok h (Stopwatch.measurements A) ->
  0 < Stopwatch.data_size A + Stopwatch.data_size B ->
  (Stopwatch.operator_plus_assign A B h).2 =
    h + (Stopwatch.data_size A + Stopwatch.data_size B) /\
  Stopwatch.iterator.base (Stopwatch.begin (Stopwatch.operator_plus_assign A B h).1)
    = h /\
  Stopwatch.iterator.base (Stopwatch.begin (Stopwatch.operator_plus_assign A B h).1)
    <> Stopwatch.iterator.base (Stopwatch.begin A) /\
  Stopwatch.iterator.operator_sub
    (Stopwatch.end_ (Stopwatch.operator_plus_assign A B h).1) (Stopwatch.begin A) =
    Throw runtime_error.
Proof.
  intros Hh Hok Hpos. unfold Stopwatch.data_size in *.
  set (n := std.v_size (Stopwatch.measurements A) +
            std.v_size (Stopwatch.measurements B)) in *.
  assert (Stopwatch.operator_plus_assign A B h =
          (Stopwatch.Make
             (std.Vector h n
                (std.set_union (std.v_elems (Stopwatch.measurements A))
                               (std.v_elems (Stopwatch.measurements B))))
             (Stopwatch.sw_mode A), h + n)) as Hres.
  { unfold Stopwatch.operator_plus_assign, bind, std.reserve. fold n.
    change (std.v_cap std.vector_default) with 0.
    destruct (Z.ltb_spec 0 n); [| lia]. unfold bind, allocate, ret.
    cbv beta iota zeta.
    rewrite back_insert_within_capacity; [reflexivity |].
    pose proof (set_union_length (std.v_elems (Stopwatch.measurements A))
                                 (std.v_elems (Stopwatch.measurements B))).
    unfold n, std.v_size in *. simpl. lia. }
  rewrite Hres. simpl.
  assert (h <> std.v_data (Stopwatch.measurements A)) as Hne.
  { unfold block_ok, null in Hok. lia. }
  splits; auto.
  apply operator_sub_throws. simpl. exact Hne.
Qed.

Lemma plus_assign_allocates_once_witness :
  (Stopwatch.operator_plus_assign
     (Stopwatch.Make (std.Vector 1 4 [0; 10; 25]) true)
     (Stopwatch.Make (std.Vector 5 4 [3; 10; 30]) false) 9).2 =
  9 + (Stopwatch.data_size (Stopwatch.Make (std.Vector 1 4 [0; 10; 25]) true) +
       Stopwatch.data_size (Stopwatch.Make (std.Vector 5 4 [3; 10; 30]) false)).
Proof.
  apply (plus_assign_allocates_once
           (Stopwatch.Make (std.Vector 1 4 [0; 10; 25]) true)
           (Stopwatch.Make (std.Vector 5 4 [3; 10; 30]) false) 9).
  - lia.
  - unfold block_ok, null. vm_compute. split; [discriminate |].
    right. repeat split; discriminate.
  - vm_compute. reflexivity.
Defined.
